(** * Maschem backend: products and contact routes

    A shallow embedding of [server/routes/products.js],
    [server/routes/contact.js] and [server/middleware/errorHandler.js].

    Every request handler reloads its JSON file, works on the in-memory
    array and writes the whole array back; the embedding threads the file
    through the handlers as explicit state.  Strings are modelled as
    sequences of ASCII characters, counts as [Z], identifiers of products
    as the integers a double holds (an integer of magnitude above [2^53]
    is rounded as the engine rounds it), prices as exact rationals
    extended with NaN and the two infinities. *)

From Stdlib Require Import List String Ascii ZArith QArith Qpower Bool Lia.
From Stdlib Require Import Permutation Sorted Lqa.
Import ListNotations.

Local Open Scope string_scope.
Local Open Scope list_scope.
Local Open Scope Z_scope.

(* ===================================================================== *)
(** * The JavaScript primitives the routes call *)
(* ===================================================================== *)

Module JS.

(** A JavaScript number.  Finite values are kept exact. *)
Inductive number : Type :=
| NaN
| Infinity (negative : bool)
| Finite (q : Q).

Definition ofZ (z : Z) : number := Finite (inject_Z z).

(** [a >= b]; any comparison with NaN is false. *)
Definition ge (a b : number) : bool :=
  match a, b with
  | NaN, _ | _, NaN => false
  | Finite x, Finite y => Qle_bool y x
  | Infinity false, _ => true
  | _, Infinity true => true
  | Infinity true, _ => false
  | Finite _, Infinity false => false
  end.

(** [a <= b]. *)
Definition le (a b : number) : bool := ge b a.

(** [a - b]. *)
Definition sub (a b : number) : number :=
  match a, b with
  | NaN, _ | _, NaN => NaN
  | Finite x, Finite y => Finite (x - y)
  | Infinity s, Infinity t => if Bool.eqb s t then NaN else Infinity s
  | Infinity s, Finite _ => Infinity s
  | Finite _, Infinity t => Infinity (negb t)
  end.

(** [v > 0], the test a sort makes on a comparator's result. *)
Definition positive (v : number) : bool :=
  match v with
  | NaN => false
  | Infinity s => negb s
  | Finite q => negb (Qle_bool q 0)
  end.

(** Truthiness of an optional string: [undefined] and [''] are falsy. *)
Definition truthy (o : option string) : bool :=
  match o with
  | Some s => negb (s =? "")%string
  | None => false
  end.

(** [a || b] on an optional string with a string default. *)
Definition orElse (o : option string) (d : string) : string :=
  match o with
  | Some s => if (s =? "")%string then d else s
  | None => d
  end.

Definition code (c : ascii) : nat := nat_of_ascii c.

Definition isDigit (c : ascii) : bool :=
  (48 <=? code c)%nat && (code c <=? 57)%nat.

(** White space as [\s] and [trim] see it, within ASCII. *)
Definition isSpace (c : ascii) : bool :=
  ((9 <=? code c)%nat && (code c <=? 13)%nat) || (code c =? 32)%nat.

Definition lowerChar (c : ascii) : ascii :=
  if (65 <=? code c)%nat && (code c <=? 90)%nat
  then ascii_of_nat (code c + 32)
  else c.

(** [String.prototype.toLowerCase]. *)
Fixpoint toLowerCase (s : string) : string :=
  match s with
  | EmptyString => EmptyString
  | String c s' => String (lowerChar c) (toLowerCase s')
  end.

(** [s.includes(t)]. *)
Fixpoint includes (s t : string) : bool :=
  if String.prefix t s then true
  else match s with
       | EmptyString => false
       | String _ s' => includes s' t
       end.

Fixpoint skipSpace (s : string) : string :=
  match s with
  | String c s' => if isSpace c then skipSpace s' else s
  | EmptyString => s
  end.

Fixpoint rev_string (s acc : string) : string :=
  match s with
  | EmptyString => acc
  | String c s' => rev_string s' (String c acc)
  end.

(** [trim]: white space removed at both ends. *)
Definition trim (s : string) : string :=
  rev_string (skipSpace (rev_string (skipSpace s) "")) "".

(** An optional leading sign; [true] is a minus. *)
Definition splitSign (s : string) : bool * string :=
  match s with
  | String c s' =>
      if (c =? "-")%char then (true, s')
      else if (c =? "+")%char then (false, s')
      else (false, s)
  | EmptyString => (false, s)
  end.

Definition digitOf (radix : Z) (c : ascii) : option Z :=
  let n := Z.of_nat (code c) in
  let d := if isDigit c then Some (n - 48)
           else if (97 <=? n) && (n <=? 122) then Some (n - 87)
           else if (65 <=? n) && (n <=? 90) then Some (n - 55)
           else None in
  match d with
  | Some v => if v <? radix then Some v else None
  | None => None
  end.

(** The value of the longest prefix of digits, [None] when it is empty. *)
Fixpoint digitsAcc (radix : Z) (s : string) (acc : option Z) : option Z :=
  match s with
  | String c s' =>
      match digitOf radix c with
      | Some d =>
          digitsAcc radix s'
            (Some (radix * match acc with Some a => a | None => 0 end + d))
      | None => acc
      end
  | EmptyString => acc
  end.

(** A leading [0x] or [0X] selects radix 16. *)
Definition stripHex (s : string) : Z * string :=
  match s with
  | String c (String d s') =>
      if (c =? "0")%char && ((d =? "x")%char || (d =? "X")%char)
      then (16, s')
      else (10, s)
  | _ => (10, s)
  end.

(** The number nearest to the integer [a >= 0].  A double has a mantissa
    of 53 bits: up to [2^53] every integer is a number; above, the
    numbers are the multiples of [ulp], and [a] goes to the nearest one,
    to the one of even mantissa when it is half way.  From [2^1024] on
    the result is Infinity, for which [2^1024] stands. *)
Definition nearest (a : Z) : Z :=
  if a <=? 2 ^ 53 then a
  else
    let ulp := 2 ^ (Z.log2 a - 52) in
    let q := a / ulp in
    let r := a mod ulp in
    let q' := if 2 * r <? ulp then q
              else if ulp <? 2 * r then q + 1
              else if Z.even q then q else q + 1 in
    Z.min (q' * ulp) (2 ^ 1024).

(** The number an integer denotes: what [JSON.parse] makes of an integer
    literal and what an operation makes of its exact integer result. *)
Definition toDouble (z : Z) : Z := Z.sgn z * nearest (Z.abs z).

(** [a + b] on integer numbers. *)
Definition add (a b : Z) : Z := toDouble (a + b).

(** [parseInt(s)] without a radix; [None] is NaN. *)
Definition parseInt (s : string) : option Z :=
  let (neg, r) := splitSign (skipSpace s) in
  let (radix, r') := stripHex r in
  option_map (fun v => toDouble (if neg then - v else v))
    (digitsAcc radix r' None).

Definition digitChar (d : Z) : ascii := ascii_of_nat (Z.to_nat d + 48).

(** The decimal digits of [n >= 0] put in front of [acc]. *)
Fixpoint digitsOf (fuel : nat) (n : Z) (acc : string) : string :=
  match fuel with
  | O => acc
  | S fuel' =>
      let acc' := String (digitChar (n mod 10)) acc in
      if n <? 10 then acc' else digitsOf fuel' (n / 10) acc'
  end.

(** The plain decimal digits of the integer [z], by which a request
    path names the identifier [z]. *)
Definition toString (z : Z) : string :=
  let n := Z.abs z in
  let ds := digitsOf (S (Z.to_nat (Z.log2 n))) n "" in
  if z <? 0 then String "-" ds else ds.

(** The longest prefix of decimal digits, and what follows it. *)
Fixpoint spanDigits (s : string) : list Z * string :=
  match s with
  | String c s' =>
      if isDigit c
      then let (ds, r) := spanDigits s' in (Z.of_nat (code c) - 48 :: ds, r)
      else ([], s)
  | EmptyString => ([], s)
  end.

Definition valueOf (ds : list Z) : Z :=
  fold_left (fun a d => 10 * a + d) ds 0.

(** An exponent part [e], [e+] or [e-] followed by at least one digit. *)
Definition exponent (s : string) : Z :=
  match s with
  | String c s' =>
      if (c =? "e")%char || (c =? "E")%char
      then let (neg, r) := splitSign s' in
           match spanDigits r with
           | ([], _) => 0
           | (ds, _) => if neg then - valueOf ds else valueOf ds
           end
      else 0
  | EmptyString => 0
  end.

Definition scale (m e : Z) : Q := (inject_Z m * Qpower (10 # 1) e)%Q.

(** [parseFloat(s)]: the longest prefix that is a decimal literal. *)
Definition parseFloat (s : string) : number :=
  let (neg, r) := splitSign (skipSpace s) in
  if String.prefix "Infinity" r then Infinity neg
  else
    let (ip, r1) := spanDigits r in
    let (fp, r2) :=
      match r1 with
      | String "." r1' => spanDigits r1'
      | _ => ([], r1)
      end in
    match ip, fp with
    | [], [] => NaN
    | _, _ =>
        let m := valueOf (ip ++ fp) in
        let e := exponent r2 - Z.of_nat (List.length fp) in
        Finite (scale (if neg then - m else m) e)
    end.

End JS.

(* ===================================================================== *)
(** * The validators of validator.js that the rule chains use *)
(* ===================================================================== *)

Module Validator.

Fixpoint allDigits (s : string) : bool :=
  match s with
  | EmptyString => true
  | String c s' => JS.isDigit c && allDigits s'
  end.

Definition nonEmpty (s : string) : bool := negb (s =? "")%string.

(** [isNumeric]: the pattern [^[+-]?([0-9]*[.])?[0-9]+$]. *)
Definition isNumeric (s : string) : bool :=
  let (_, r) := JS.splitSign s in
  let (ip, r1) := JS.spanDigits r in
  match r1 with
  | EmptyString => negb (Nat.eqb (List.length ip) 0)
  | String c r2 => if (c =? ".")%char then nonEmpty r2 && allDigits r2
                   else false
  end.

(** The pattern of [isFloat]: an optional sign, optional digits, an
    optional point followed by any digits, an optional exponent ([e] or
    [E], an optional sign, at least one digit), and the end. *)
Definition floatPattern (s : string) : bool :=
  let (_, r) := JS.splitSign s in
  let (_, r1) := JS.spanDigits r in
  let r2 := match r1 with
            | String "." r1' => snd (JS.spanDigits r1')
            | _ => r1
            end in
  match r2 with
  | EmptyString => true
  | String c r3 =>
      ((c =? "e")%char || (c =? "E")%char)
      && (let (_, r4) := JS.splitSign r3 in nonEmpty r4 && allDigits r4)
  end.

Definition isIn (s : string) (l : list string) : bool :=
  existsb (String.eqb s) l.

(** [isFloat({ min })]. *)
Definition isFloatMin (min : JS.number) (s : string) : bool :=
  if isIn s [""; "."; ","; "-"; "+"] then false
  else floatPattern s && JS.ge (JS.parseFloat s) min.

(** [isLength({ min, max })]. *)
Definition isLength (min max : nat) (s : string) : bool :=
  (min <=? String.length s)%nat && (String.length s <=? max)%nat.

Definition phoneChar (c : ascii) : bool :=
  JS.isDigit c || JS.isSpace c
  || (c =? "-")%char || (c =? "(")%char || (c =? ")")%char.

Fixpoint allPhoneChars (s : string) : bool :=
  match s with
  | EmptyString => true
  | String c s' => phoneChar c && allPhoneChars s'
  end.

(** [matches(/^[+]?[\d\s\-()]{7,20}$/)]. *)
Definition matchesPhone (s : string) : bool :=
  let r := match s with String "+" s' => s' | _ => s end in
  allPhoneChars r && isLength 7 20 r.

End Validator.

(* ===================================================================== *)
(** * JSON values, responses, errors *)
(* ===================================================================== *)

#[warnings="-register-all"]
Inductive json : Type :=
| JNull
| JBool (b : bool)
| JNum (q : Q)
| JStr (s : string)
| JArr (items : list json)
| JObj (fields : list (string * json)).

(** NaN and the infinities are serialized as [null]. *)
Definition jnumber (n : JS.number) : json :=
  match n with
  | JS.Finite q => JNum q
  | _ => JNull
  end.

Definition jint (z : Z) : json := JNum (inject_Z z).

Definition jcount {A : Type} (l : list A) : json :=
  jint (Z.of_nat (List.length l)).

(** A field whose value is [undefined] is left out of the object. *)
Definition jopt (k : string) (o : option string) : list (string * json) :=
  match o with
  | Some s => [(k, JStr s)]
  | None => []
  end.

Definition keys (j : json) : list string :=
  match j with
  | JObj fields => map fst fields
  | _ => []
  end.

Fixpoint lookup (k : string) (fields : list (string * json)) : option json :=
  match fields with
  | [] => None
  | (k', v) :: rest => if (k =? k')%string then Some v else lookup k rest
  end.

Definition field (k : string) (j : json) : option json :=
  match j with
  | JObj fields => lookup k fields
  | _ => None
  end.

Record Response : Type := mkResponse { statusCode : Z; body : json }.

(** [res.json(b)], with the default status. *)
Definition send (b : json) : Response := mkResponse 200 b.

(** What the route code can see of a thrown error. *)
Record Error : Type := mkError {
  err_name : string;
  err_message : string;
  err_statusCode : option Z;
  err_code : option string;
  err_body : bool;
  err_stack : option string;
  err_details : option json
}.

(** What a request finds around it: the environment variable, the clock,
    the identifier generator and the stack trace a new error would carry. *)
Record Env : Type := mkEnv {
  NODE_ENV : option string;
  now : string;
  uuidv4 : string;
  stackTrace : string
}.

(** [new Error(msg)]. *)
Definition newError (env : Env) (msg : string) : Error :=
  mkError "Error" msg None None false (Some (stackTrace env)) None.

Definition development (env : Env) : bool :=
  match NODE_ENV env with
  | Some v => (v =? "development")%string
  | None => false
  end.

(** [middleware/errorHandler.js]. *)
Definition errorHandler (env : Env) (err : Error) : Response :=
  let statusCode :=
    match err_statusCode err with
    | Some c => if c =? 0 then 500 else c
    | None => 500
    end in
  let message :=
    if (err_message err =? "")%string then "Internal Server Error"
    else err_message err in
  let '(statusCode, message) :=
    if (err_name err =? "ValidationError")%string
    then (400, "Validation Error") else (statusCode, message) in
  let '(statusCode, message) :=
    if (err_name err =? "SyntaxError")%string && err_body err
    then (400, "Invalid JSON in request body") else (statusCode, message) in
  let '(statusCode, message) :=
    match err_code err with
    | Some c => if (c =? "ENOENT")%string
                then (404, "Resource not found") else (statusCode, message)
    | None => (statusCode, message)
    end in
  mkResponse statusCode
    (JObj ([("success", JBool false); ("error", JStr message)]
           ++ (if development env
               then jopt "stack" (err_stack err)
                    ++ match err_details err with
                       | Some d => [("details", d)]
                       | None => []
                       end
               else []))).

(** A failed rule: the field and the message of the rule. *)
Definition FieldError : Type := (string * string)%type.

Definition rule (ok : bool) (path msg : string) : list FieldError :=
  if ok then [] else [(path, msg)].

(** The response of [handleValidationErrors] when some rule failed. *)
Definition validationResponse (errors : list FieldError) : Response :=
  mkResponse 400
    (JObj [("success", JBool false);
           ("errors",
            JArr (map (fun e : FieldError =>
                         JObj [("field", JStr (fst e));
                               ("message", JStr (snd e))]) errors))]).

(* ===================================================================== *)
(** * The backing file and the handler monad *)
(* ===================================================================== *)

(** The JSON file behind a store: [content] is [None] when the file cannot
    be read or parsed; [writable] tells whether [fs.writeFile] succeeds, a
    failed write leaving the content as it was; [writes] counts the calls
    of [fs.writeFile]. *)
Record File (A : Type) : Type := mkFile {
  content : option A;
  writable : bool;
  writes : nat
}.
Arguments mkFile {A}.
Arguments content {A}.
Arguments writable {A}.
Arguments writes {A}.

Inductive outcome (A : Type) : Type :=
| Done (a : A)
| Thrown (e : Error).
Arguments Done {A}.
Arguments Thrown {A}.

(** An asynchronous computation over the file of a store. *)
Definition Async (S A : Type) : Type := S -> outcome A * S.

Definition ret {S A : Type} (a : A) : Async S A := fun st => (Done a, st).

Definition throw {S A : Type} (e : Error) : Async S A :=
  fun st => (Thrown e, st).

Definition bind {S A B : Type} (m : Async S A) (k : A -> Async S B)
  : Async S B :=
  fun st =>
    match m st with
    | (Done a, st') => k a st'
    | (Thrown e, st') => (Thrown e, st')
    end.

Declare Scope async_scope.
Delimit Scope async_scope with async.
Notation "x <- m ;; k" := (bind m (fun x => k))
  (at level 100, m at next level, right associativity) : async_scope.
Notation "m ;;; k" := (bind m (fun _ => k))
  (at level 100, right associativity) : async_scope.

(** [try { ... } catch (error) { next(error) }] followed by the global
    error handler. *)
Definition guarded {S : Type} (env : Env) (h : Async S Response)
  : S -> Response * S :=
  fun st =>
    match h st with
    | (Done r, st') => (r, st')
    | (Thrown e, st') => (errorHandler env e, st')
    end.

(** [handleValidationErrors]: the 400 with the failed rules, or [next()]. *)
Definition handleValidationErrors {S : Type} (errors : list FieldError)
  (next : S -> Response * S) : S -> Response * S :=
  fun st =>
    match errors with
    | [] => next st
    | _ => (validationResponse errors, st)
    end.

Section FileAccess.
Context {A : Type}.

(** [JSON.parse(await fs.readFile(...))] inside a [try] that answers [[]]. *)
Definition readAll : Async (File (list A)) (list A) :=
  fun f => (Done match content f with Some l => l | None => [] end, f).

(** [await fs.writeFile(...)] inside a [try] that answers a flag. *)
Definition writeAll (l : list A) : Async (File (list A)) bool :=
  fun f =>
    if writable f
    then (Done true, mkFile (Some l) true (S (writes f)))
    else (Done false, mkFile (content f) false (S (writes f))).

(** [l.findIndex(p)]; [None] is [-1].  An index it answers lies inside
    the array, so that the handlers never meet the [None] of [nth_error]
    at it. *)
Fixpoint findIndex (p : A -> bool) (l : list A) : option nat :=
  match l with
  | [] => None
  | x :: l' => if p x then Some 0%nat else option_map S (findIndex p l')
  end.

(** [l.splice(i, 1)]: the array without its element at [i]. *)
Fixpoint removeAt (i : nat) (l : list A) : list A :=
  match l, i with
  | [], _ => []
  | _ :: l', O => l'
  | x :: l', S j => x :: removeAt j l'
  end.

(** [l[i] = v] for an index inside the array. *)
Fixpoint replaceAt (i : nat) (v : A) (l : list A) : list A :=
  match l, i with
  | [], _ => []
  | _ :: l', O => v :: l'
  | x :: l', S j => x :: replaceAt j v l'
  end.

(** [l.sort(cmp)]: the stable sort, by insertion.  A positive [cmp x y]
    moves [x] behind [y]; a negative one, zero and NaN leave [x] in front.
    An engine may order the array in another way only when [cmp] is not a
    consistent ordering; it returns a permutation in every case. *)
Fixpoint insert (cmp : A -> A -> JS.number) (x : A) (l : list A) : list A :=
  match l with
  | [] => [x]
  | y :: l' => if JS.positive (cmp x y) then y :: insert cmp x l' else x :: l
  end.

Fixpoint sort (cmp : A -> A -> JS.number) (l : list A) : list A :=
  match l with
  | [] => []
  | x :: l' => insert cmp x (sort cmp l')
  end.

End FileAccess.

(** [[...new Set(l)]]: the distinct values in order of first occurrence. *)
Fixpoint distinct (l : list string) : list string :=
  match l with
  | [] => []
  | x :: l' => x :: filter (fun y => negb (y =? x)%string) (distinct l')
  end.

(** The host functions the routes call whose definition lies outside the
    repository: the locale-aware comparison, the reading of a date string,
    and the e-mail check and normal form of validator.js. *)
Class Host : Type := mkHost {
  localeCompare : string -> string -> JS.number;
  dateValue : string -> JS.number;
  isEmail : string -> bool;
  normalizeEmail : string -> string
}.

(* ===================================================================== *)
(** * routes/products.js *)
(* ===================================================================== *)

Module Products.

(** A product as the file holds it.  [literal] is the integer the JSON
    text writes for [id]. *)
Record Product : Type := mkProduct {
  literal : Z;
  name : string;
  image : string;
  description : string;
  packaging : string;
  category : string;
  price : JS.number;
  createdAt : option string;
  updatedAt : option string
}.

(** [p.id]: the number [JSON.parse] makes of the literal. *)
Definition id (p : Product) : Z := JS.toDouble (literal p).

Definition Store : Type := File (list Product).

(** An identifier in a response: Infinity is serialized as [null].  (In
    the file the model keeps such an identifier as it is.) *)
Definition jid (z : Z) : json :=
  if Z.abs z =? 2 ^ 1024 then JNull else jint z.

Definition toJSON (p : Product) : json :=
  JObj ([("id", jid (id p));
         ("name", JStr (name p));
         ("image", JStr (image p));
         ("description", JStr (description p));
         ("packaging", JStr (packaging p));
         ("category", JStr (category p));
         ("price", jnumber (price p))]
        ++ jopt "createdAt" (createdAt p)
        ++ jopt "updatedAt" (updatedAt p)).

(** The query string of [GET /api/products]. *)
Record Query : Type := mkQuery {
  q_category : option string;
  q_search : option string;
  q_minPrice : option string;
  q_maxPrice : option string;
  q_sort : option string
}.

(** The body of [POST /api/products]. *)
Record CreateBody : Type := mkCreateBody {
  c_name : option string;
  c_image : option string;
  c_description : option string;
  c_packaging : option string;
  c_category : option string;
  c_price : option string
}.

(** The body of [PUT /api/products/:id]: the fields of a product, each
    of them optional. *)
Record UpdateBody : Type := mkUpdateBody {
  u_id : option Z;
  u_name : option string;
  u_image : option string;
  u_description : option string;
  u_packaging : option string;
  u_category : option string;
  u_price : option string;
  u_createdAt : option string;
  u_updatedAt : option string
}.

Definition getProductsData : Async Store (list Product) := readAll.

Definition saveProductsData (products : list Product) : Async Store bool :=
  writeAll products.

(** The value a rule chain works on: a missing field reads as ['']. *)
Definition text (o : option string) : string :=
  match o with Some s => s | None => "" end.

Definition trimmed (o : option string) : string := JS.trim (text o).

Definition idErrors (idParam : string) : list FieldError :=
  rule (Validator.isNumeric idParam) "id" "Product ID must be a number".

Definition createErrors (b : CreateBody) : list FieldError :=
  rule (Validator.nonEmpty (trimmed (c_name b)))
    "name" "Product name is required"
  ++ rule (Validator.nonEmpty (trimmed (c_description b)))
    "description" "Description is required"
  ++ rule (Validator.nonEmpty (trimmed (c_category b)))
    "category" "Category is required"
  ++ rule (Validator.nonEmpty (trimmed (c_packaging b)))
    "packaging" "Packaging is required"
  ++ rule (Validator.isFloatMin (JS.ofZ 0) (text (c_price b)))
    "price" "Price must be a positive number".

Definition updateErrors (idParam : string) (b : UpdateBody)
  : list FieldError :=
  idErrors idParam
  ++ match u_name b with
     | Some s => rule (Validator.nonEmpty (JS.trim s))
                   "name" "Product name cannot be empty"
     | None => []
     end
  ++ match u_price b with
     | Some s => rule (Validator.isFloatMin (JS.ofZ 0) s)
                   "price" "Price must be a positive number"
     | None => []
     end.

(** [Math.max(...products.map(p => p.id))] on a non-empty array. *)
Definition maxOf (ids : list Z) : Z :=
  match ids with
  | [] => 0
  | z :: rest => fold_left Z.max rest z
  end.

Definition maxId (products : list Product) : Z :=
  match products with
  | [] => 0
  | _ => maxOf (map id products)
  end.

(** [p.id === parseInt(req.params.id)]. *)
Definition hasId (idParam : string) (p : Product) : bool :=
  match JS.parseInt idParam with
  | Some n => id p =? n
  | None => false
  end.

Definition notFound : Response :=
  mkResponse 404
    (JObj [("success", JBool false); ("error", JStr "Product not found")]).

Definition found (product : Product) : Response :=
  send (JObj [("success", JBool true); ("data", toJSON product)]).

Definition created (product : Product) : Response :=
  mkResponse 201
    (JObj [("success", JBool true);
           ("message", JStr "Product created successfully");
           ("data", toJSON product)]).

Definition updated (product : Product) : Response :=
  send (JObj [("success", JBool true);
              ("message", JStr "Product updated successfully");
              ("data", toJSON product)]).

Definition deleted (deletedProduct : Product) : Response :=
  send (JObj [("success", JBool true);
              ("message", JStr "Product deleted successfully");
              ("data", toJSON deletedProduct)]).

Section Routes.
Context {host : Host}.
Variable env : Env.

(** The [switch (sort)]: an unknown key leaves the order alone. *)
Definition sortProducts (sortKey : string) (products : list Product)
  : list Product :=
  if (sortKey =? "price_asc")%string
  then sort (fun a b => JS.sub (price a) (price b)) products
  else if (sortKey =? "price_desc")%string
  then sort (fun a b => JS.sub (price b) (price a)) products
  else if (sortKey =? "name_asc")%string
  then sort (fun a b => localeCompare (name a) (name b)) products
  else if (sortKey =? "name_desc")%string
  then sort (fun a b => localeCompare (name b) (name a)) products
  else products.

(** The filters and the sort of [GET /api/products], in their order. *)
Definition select (q : Query) (products : list Product) : list Product :=
  let products :=
    if JS.truthy (q_category q)
    then filter (fun p => (JS.toLowerCase (category p)
                           =? JS.toLowerCase (text (q_category q)))%string)
           products
    else products in
  let products :=
    if JS.truthy (q_search q)
    then let searchTerm := JS.toLowerCase (text (q_search q)) in
         filter (fun p => JS.includes (JS.toLowerCase (name p)) searchTerm
                          || JS.includes (JS.toLowerCase (description p))
                               searchTerm)
           products
    else products in
  let products :=
    if JS.truthy (q_minPrice q)
    then filter (fun p => JS.ge (price p)
                            (JS.parseFloat (text (q_minPrice q))))
           products
    else products in
  let products :=
    if JS.truthy (q_maxPrice q)
    then filter (fun p => JS.le (price p)
                            (JS.parseFloat (text (q_maxPrice q))))
           products
    else products in
  if JS.truthy (q_sort q) then sortProducts (text (q_sort q)) products
  else products.

Definition listing (items : list Product) (categories : list string)
  : Response :=
  send (JObj [("success", JBool true);
              ("count", jcount items);
              ("categories", JArr (map JStr categories));
              ("data", JArr (map toJSON items))]).

(** [GET /api/products]. *)
Definition listAll (q : Query) : Store -> Response * Store :=
  guarded env
    (products <- getProductsData ;;
     let products := select q products in
     allProducts <- getProductsData ;;
     let categories := distinct (map category allProducts) in
     ret (listing products categories))%async.

(** [GET /api/products/categories]. *)
Definition listCategories : Store -> Response * Store :=
  guarded env
    (products <- getProductsData ;;
     let categories := distinct (map category products) in
     ret (send (JObj [("success", JBool true);
                      ("count", jcount categories);
                      ("data", JArr (map JStr categories))])))%async.

(** [GET /api/products/:id]. *)
Definition getById (idParam : string) : Store -> Response * Store :=
  handleValidationErrors (idErrors idParam)
  (guarded env
    (products <- getProductsData ;;
     match find (hasId idParam) products with
     | None => ret notFound
     | Some product => ret (found product)
     end)%async).

(** [s.toLowerCase().replace(/\s+/g, '-')]; [gap] tells that the
    previous character was white space. *)
Fixpoint dashedFrom (gap : bool) (s : string) : string :=
  match s with
  | EmptyString => EmptyString
  | String c s' =>
      if JS.isSpace c
      then if gap then dashedFrom true s'
           else String "-" (dashedFrom true s')
      else String (JS.lowerChar c) (dashedFrom false s')
  end.

Definition dashed (s : string) : string := dashedFrom false s.

(** [GET /api/products/category/:category]. *)
Definition listByCategory (categoryParam : string)
  : Store -> Response * Store :=
  guarded env
    (products <- getProductsData ;;
     let categoryProducts :=
       filter (fun p => (dashed (category p) =? dashed categoryParam)%string)
         products in
     ret (send (JObj [("success", JBool true);
                      ("count", jcount categoryProducts);
                      ("category", JStr categoryParam);
                      ("data", JArr (map toJSON categoryProducts))])))%async.

(** The record [POST /api/products] builds from the sanitized body. *)
Definition newProduct (products : list Product) (b : CreateBody) : Product :=
  mkProduct (JS.add (maxId products) 1)
    (trimmed (c_name b))
    (JS.orElse (c_image b) "Images/Maschem-dish-deluxe.png")
    (trimmed (c_description b))
    (trimmed (c_packaging b))
    (trimmed (c_category b))
    (JS.parseFloat (text (c_price b)))
    (Some (now env))
    None.

(** [POST /api/products]. *)
Definition create (b : CreateBody) : Store -> Response * Store :=
  handleValidationErrors (createErrors b)
  (guarded env
    (products <- getProductsData ;;
     let product := newProduct products b in
     let products := products ++ [product] in
     _ <- saveProductsData products ;;
     ret (created product))%async).

Definition pick {A : Type} (o : option A) (d : A) : A :=
  match o with Some v => v | None => d end.

(** [{ ...old, ...req.body, id: old.id, updatedAt: now }]. *)
Definition updatedProduct (old : Product) (b : UpdateBody) : Product :=
  mkProduct (id old)
    (match u_name b with Some s => JS.trim s | None => name old end)
    (pick (u_image b) (image old))
    (pick (u_description b) (description old))
    (pick (u_packaging b) (packaging old))
    (pick (u_category b) (category old))
    (match u_price b with
     | Some s => JS.parseFloat s
     | None => price old
     end)
    (match u_createdAt b with Some s => Some s | None => createdAt old end)
    (Some (now env)).

(** [PUT /api/products/:id]. *)
Definition update (idParam : string) (b : UpdateBody)
  : Store -> Response * Store :=
  handleValidationErrors (updateErrors idParam b)
  (guarded env
    (products <- getProductsData ;;
     match findIndex (hasId idParam) products with
     | None => ret notFound
     | Some index =>
         match nth_error products index with
         | None => ret notFound
         | Some old =>
             let product := updatedProduct old b in
             let products := replaceAt index product products in
             _ <- saveProductsData products ;;
             ret (updated product)
         end
     end)%async).

(** [DELETE /api/products/:id]. *)
Definition delete (idParam : string) : Store -> Response * Store :=
  handleValidationErrors (idErrors idParam)
  (guarded env
    (products <- getProductsData ;;
     match findIndex (hasId idParam) products with
     | None => ret notFound
     | Some index =>
         match nth_error products index with
         | None => ret notFound
         | Some deletedProduct =>
             let products := removeAt index products in
             _ <- saveProductsData products ;;
             ret (deleted deletedProduct)
         end
     end)%async).

End Routes.

End Products.

(* ===================================================================== *)
(** * routes/contact.js *)
(* ===================================================================== *)

Module Contact.

Record Submission : Type := mkSubmission {
  id : string;
  firstName : string;
  lastName : string;
  email : string;
  phone : option string;
  subject : string;
  message : string;
  status : string;
  createdAt : string;
  ipAddress : option string;
  userAgent : option string;
  updatedAt : option string
}.

(** The data directory and the submissions file in it.  Without the
    directory there is no file: [creatable] tells whether [fs.mkdir]
    succeeds, [fileWritable] whether [fs.writeFile] does once the
    directory is there. *)
Inductive Disk : Type :=
| NoDirectory (creatable fileWritable : bool) (written : nat)
| Directory (f : File (list Submission)).

Definition Store : Type := Disk.

(** The submissions file as the handlers meet it: unreadable without
    its directory, and written with success when the directory is there
    or can be made and [fs.writeFile] succeeds. *)
Definition seen (d : Disk) : File (list Submission) :=
  match d with
  | NoDirectory creatable fileWritable written =>
      mkFile None (creatable && fileWritable) written
  | Directory f => f
  end.

Definition toJSON (s : Submission) : json :=
  JObj ([("id", JStr (id s));
         ("firstName", JStr (firstName s));
         ("lastName", JStr (lastName s));
         ("email", JStr (email s));
         ("phone", match phone s with Some p => JStr p | None => JNull end);
         ("subject", JStr (subject s));
         ("message", JStr (message s));
         ("status", JStr (status s));
         ("createdAt", JStr (createdAt s))]
        ++ jopt "ipAddress" (ipAddress s)
        ++ jopt "userAgent" (userAgent s)
        ++ jopt "updatedAt" (updatedAt s)).

(** A [POST /api/contact] request: the body, the caller's address and
    the [User-Agent] header. *)
Record Form : Type := mkForm {
  f_firstName : option string;
  f_lastName : option string;
  f_email : option string;
  f_phone : option string;
  f_subject : option string;
  f_message : option string;
  f_ip : option string;
  f_userAgent : option string
}.

Definition text (o : option string) : string :=
  match o with Some s => s | None => "" end.

Definition trimmed (o : option string) : string := JS.trim (text o).

Definition subjects : list string :=
  ["general"; "products"; "orders"; "support"; "partnership"].

Definition statuses : list string :=
  ["pending"; "read"; "responded"; "archived"].

Definition notFound : Response :=
  mkResponse 404
    (JObj [("success", JBool false); ("error", JStr "Submission not found")]).

Definition accepted (created : Submission) : Response :=
  mkResponse 201
    (JObj [("success", JBool true);
           ("message",
            JStr "Thank you for your message! We will get back to you soon.");
           ("data",
            JObj [("id", JStr (id created));
                  ("submittedAt", JStr (createdAt created))])]).

Definition listing (filteredSubmissions : list Submission) : Response :=
  send (JObj [("success", JBool true);
              ("count", jcount filteredSubmissions);
              ("data", JArr (map toJSON filteredSubmissions))]).

Definition updated (submission : Submission) : Response :=
  send (JObj [("success", JBool true);
              ("message", JStr "Submission updated successfully");
              ("data", toJSON submission)]).

Definition deleted (submission : Submission) : Response :=
  send (JObj [("success", JBool true);
              ("message", JStr "Submission deleted successfully");
              ("data", toJSON submission)]).

(** [ensureDataDirectory]: [fs.access] finds the directory, or
    [fs.mkdir] makes it; the file in the directory, or [None] when
    [fs.mkdir] throws. *)
Definition ensureDataDirectory (d : Disk)
  : option (File (list Submission)) :=
  match d with
  | Directory f => Some f
  | NoDirectory true fileWritable written =>
      Some (mkFile None fileWritable written)
  | NoDirectory false _ _ => None
  end.

(** The disk once [ensureDataDirectory] has run. *)
Definition opened (d : Disk) : Disk :=
  match ensureDataDirectory d with
  | Some f => Directory f
  | None => d
  end.

(** [getSubmissions]: the data directory is made if it is missing, the
    file is read and parsed; any failure on the way answers [[]]. *)
Definition getSubmissions : Async Store (list Submission) :=
  fun d =>
    match ensureDataDirectory d with
    | Some f => let (r, f') := readAll f in (r, Directory f')
    | None => (Done [], d)
    end.

(** [saveSubmissions]: the data directory is made if it is missing and
    the file is written; any failure on the way answers [false]. *)
Definition saveSubmissions (submissions : list Submission)
  : Async Store bool :=
  fun d =>
    match ensureDataDirectory d with
    | Some f => let (r, f') := writeAll submissions f in (r, Directory f')
    | None => (Done false, d)
    end.

Section Routes.
Context {host : Host}.
Variable env : Env.

Definition nameErrors (v path required bounds : string)
  : list FieldError :=
  rule (Validator.nonEmpty v) path required
  ++ rule (Validator.isLength 2 50 v) path bounds.

Definition emailErrors (f : Form) : list FieldError :=
  rule (Validator.nonEmpty (trimmed (f_email f)))
    "email" "Email is required"
  ++ rule (isEmail (trimmed (f_email f)))
    "email" "Please provide a valid email address".

Definition phoneErrors (f : Form) : list FieldError :=
  match f_phone f with
  | Some p => rule (Validator.matchesPhone (JS.trim p))
                "phone" "Please provide a valid phone number"
  | None => []
  end.

Definition subjectErrors (f : Form) : list FieldError :=
  rule (Validator.nonEmpty (trimmed (f_subject f)))
    "subject" "Subject is required"
  ++ rule (Validator.isIn (trimmed (f_subject f)) subjects)
    "subject" "Invalid subject selected".

Definition messageErrors (f : Form) : list FieldError :=
  rule (Validator.nonEmpty (trimmed (f_message f)))
    "message" "Message is required"
  ++ rule (Validator.isLength 10 2000 (trimmed (f_message f)))
    "message" "Message must be 10-2000 characters".

Definition submitErrors (f : Form) : list FieldError :=
  nameErrors (trimmed (f_firstName f)) "firstName"
    "First name is required" "First name must be 2-50 characters"
  ++ nameErrors (trimmed (f_lastName f)) "lastName"
    "Last name is required" "Last name must be 2-50 characters"
  ++ emailErrors f
  ++ phoneErrors f
  ++ subjectErrors f
  ++ messageErrors f.

(** The record [POST /api/contact] builds from the sanitized body. *)
Definition newSubmission (f : Form) : Submission :=
  mkSubmission (uuidv4 env)
    (trimmed (f_firstName f))
    (trimmed (f_lastName f))
    (normalizeEmail (trimmed (f_email f)))
    (match f_phone f with
     | Some p => if (JS.trim p =? "")%string then None else Some (JS.trim p)
     | None => None
     end)
    (trimmed (f_subject f))
    (trimmed (f_message f))
    "pending"
    (now env)
    (f_ip f)
    (f_userAgent f)
    None.

(** [POST /api/contact]. *)
Definition submit (f : Form) : Store -> Response * Store :=
  handleValidationErrors (submitErrors f)
  (guarded env
    (submissions <- getSubmissions ;;
     let created := newSubmission f in
     let submissions := submissions ++ [created] in
     saved <- saveSubmissions submissions ;;
     if negb saved
     then throw (newError env "Failed to save submission")
     else ret (accepted created))%async).

Definition byDate (oldest : bool) (a b : Submission) : JS.number :=
  if oldest
  then JS.sub (dateValue (createdAt a)) (dateValue (createdAt b))
  else JS.sub (dateValue (createdAt b)) (dateValue (createdAt a)).

(** The filter and the sort of [GET /api/contact/submissions]. *)
Definition select (statusKey sortKey : option string)
  (submissions : list Submission) : list Submission :=
  let filteredSubmissions :=
    if JS.truthy statusKey
    then filter (fun s => (status s =? text statusKey)%string) submissions
    else submissions in
  if match sortKey with
     | Some k => (k =? "oldest")%string
     | None => false
     end
  then sort (byDate true) filteredSubmissions
  else sort (byDate false) filteredSubmissions.

(** [GET /api/contact/submissions]. *)
Definition listAll (statusKey sortKey : option string)
  : Store -> Response * Store :=
  guarded env
    (submissions <- getSubmissions ;;
     let filteredSubmissions := select statusKey sortKey submissions in
     ret (listing filteredSubmissions))%async.

Definition statusErrors (newStatus : option string) : list FieldError :=
  rule (Validator.isIn (text newStatus) statuses)
    "status" "Invalid status".

Definition hasId (idParam : string) (s : Submission) : bool :=
  (id s =? idParam)%string.

(** [{ ...old, status: req.body.status, updatedAt: now }]. *)
Definition restamp (old : Submission) (newStatus : string) : Submission :=
  mkSubmission (id old) (firstName old) (lastName old) (email old)
    (phone old) (subject old) (message old)
    newStatus
    (createdAt old) (ipAddress old) (userAgent old)
    (Some (now env)).

(** [PATCH /api/contact/submissions/:id]. *)
Definition updateStatus (idParam : string) (newStatus : option string)
  : Store -> Response * Store :=
  handleValidationErrors (statusErrors newStatus)
  (guarded env
    (submissions <- getSubmissions ;;
     match findIndex (hasId idParam) submissions with
     | None => ret notFound
     | Some index =>
         match nth_error submissions index with
         | None => ret notFound
         | Some old =>
             let stamped := restamp old (text newStatus) in
             let submissions := replaceAt index stamped submissions in
             _ <- saveSubmissions submissions ;;
             ret (updated stamped)
         end
     end)%async).

(** [DELETE /api/contact/submissions/:id]. *)
Definition delete (idParam : string) : Store -> Response * Store :=
  guarded env
    (submissions <- getSubmissions ;;
     match findIndex (hasId idParam) submissions with
     | None => ret notFound
     | Some index =>
         match nth_error submissions index with
         | None => ret notFound
         | Some removed =>
             let submissions := removeAt index submissions in
             _ <- saveSubmissions submissions ;;
             ret (deleted removed)
         end
     end)%async.

End Routes.

End Contact.

Coercion Contact.seen : Contact.Disk >-> File.

(* ===================================================================== *)
(** * A host and data to run the routes on *)
(* ===================================================================== *)

Module Sample.

(** Comparison by character code, for ASCII names. *)
Definition compareStrings (a b : string) : JS.number :=
  match String.compare a b with
  | Lt => JS.ofZ (-1)
  | Eq => JS.ofZ 0
  | Gt => JS.ofZ 1
  end.

Fixpoint digitsIn (s : string) : list Z :=
  match s with
  | EmptyString => []
  | String c s' =>
      if JS.isDigit c then Z.of_nat (JS.code c) - 48 :: digitsIn s'
      else digitsIn s'
  end.

(** The digits of an ISO time stamp read as one number: it grows with
    the time the stamp denotes. *)
Definition stampValue (s : string) : JS.number :=
  match digitsIn s with
  | [] => JS.NaN
  | ds => JS.ofZ (JS.valueOf ds)
  end.

Definition host : Host :=
  mkHost compareStrings stampValue
    (fun s => JS.includes s "@") JS.toLowerCase.

Definition env : Env :=
  mkEnv (Some "production") "2024-05-01T08:00:00.000Z"
    "3b241101-e2bb-4255-8caf-4136c566a962" "Error: at contact.js".

Definition soap : Products.Product :=
  Products.mkProduct 1 "Dish Deluxe" "Images/Maschem-dish-deluxe.png"
    "Dishwashing liquid" "5L" "Cleaning Chemicals"
    (JS.Finite (4999 # 100)) None None.

Definition bleach : Products.Product :=
  Products.mkProduct 2 "Thick Bleach" "Images/bleach.png"
    "Bleach for bathrooms" "750ml" "Bathroom Care"
    (JS.Finite (25 # 1)) None None.

Definition gel : Products.Product :=
  Products.mkProduct 3 "Hand Gel" "Images/gel.png"
    "Sanitizer gel" "500ml" "Sanitizers"
    (JS.Finite (35 # 1)) None None.

Definition catalog : list Products.Product := [soap; bleach; gel].

Definition shelf : Products.Store := mkFile (Some catalog) true 0.

(** The same file when writing it fails. *)
Definition lockedShelf : Products.Store := mkFile (Some catalog) false 0.

(** A products file that cannot be read. *)
Definition lostShelf : Products.Store := mkFile None true 0.

Definition body : Products.CreateBody :=
  Products.mkCreateBody (Some "Pine Gel") None (Some "Floor cleaner")
    (Some "5L") (Some "Cleaning Chemicals") (Some "59.50").

Definition patch : Products.UpdateBody :=
  Products.mkUpdateBody None None None None (Some "1L") None None None None.

Definition form : Contact.Form :=
  Contact.mkForm (Some "Jo") (Some "Doe") (Some "jo@x.com") None
    (Some "general") (Some "Hello there, need info")
    (Some "127.0.0.1") (Some "curl/8.0").

Definition note : Contact.Submission :=
  Contact.mkSubmission "a1" "Ann" "Lee" "ann@x.com" None "orders"
    "Where is my order?" "pending" "2024-04-30T10:00:00.000Z"
    (Some "10.0.0.7") None None.

Definition inbox : Contact.Store :=
  Contact.Directory (mkFile (Some [note]) true 0).

Definition lockedInbox : Contact.Store :=
  Contact.Directory (mkFile (Some [note]) false 0).

(** A deployment in which [server/data] has not been made yet. *)
Definition freshDisk : Contact.Store := Contact.NoDirectory true true 0.

(** A products file whose one product has the identifier [2^53]. *)
Definition brim : Products.Product :=
  Products.mkProduct 9007199254740992 "Drum" "Images/drum.png"
    "Bulk detergent" "200L" "Cleaning Chemicals"
    (JS.Finite (1500 # 1)) None None.

Definition fullShelf : Products.Store := mkFile (Some [brim]) true 0.





End Sample.

(* ===================================================================== *)
(** * Reading stores and responses *)
(* ===================================================================== *)

(** The records a store holds: what reading its file answers. *)
Definition catalog {A : Type} (f : File (list A)) : list A :=
  match content f with
  | Some l => l
  | None => []
  end.

(** The array under the key [data] of a response. *)
Definition dataOf (r : Response) : list json :=
  match field "data" (body r) with
  | Some (JArr items) => items
  | _ => []
  end.

Definition succeeded (r : Response) : Prop :=
  field "success" (body r) = Some (JBool true).

Definition failed (r : Response) : Prop :=
  field "success" (body r) = Some (JBool false).

(** A returned item whose [category] equals [X] up to letter case. *)
Definition matchesCategory (X : string) (j : json) : Prop :=
  exists c, field "category" j = Some (JStr c)
            /\ JS.toLowerCase c = JS.toLowerCase X.

(** The [categories] of a listing are exactly the distinct category names
    of the products [l]. *)
Definition categoriesOf (l : list Products.Product) (r : Response) : Prop :=
  exists cats,
    field "categories" (body r) = Some (JArr (map JStr cats))
    /\ NoDup cats
    /\ forall c, In c cats <-> exists p, In p l /\ Products.category p = c.

(** Successive [POST /api/products] calls, each at its own time. *)
Fixpoint creates (calls : list (Env * Products.CreateBody))
  (st : Products.Store) : Products.Store :=
  match calls with
  | [] => st
  | (env, b) :: rest => creates rest (snd (Products.create env b st))
  end.

(** The integers [1], ..., [n]. *)
Definition upTo (n : nat) : list Z := map Z.of_nat (seq 1 n).

(** What may follow the digits of an identifier in a request path:
    nothing, or a decimal point and more. *)
Definition pointTail (t : string) : Prop :=
  t = "" \/ exists r, t = String "." r.

(** A decimal point followed by at least one digit, and digits only. *)
Definition fraction (t : string) : Prop :=
  exists r, t = String "." r /\ r <> "" /\ Validator.allDigits r = true.


(** The integers whose successor is computed exactly. *)
Definition safe (z : Z) : Prop := - 2 ^ 53 <= z < 2 ^ 53.

(** A catalog all of whose identifiers are such integers. *)
Definition safeCatalog (l : list Products.Product) : Prop :=
  forall p, In p l -> safe (Products.id p).



(** The response to a status outside the four known ones. *)
Definition statusRejected : Response :=
  validationResponse [("status", "Invalid status")].

(** A successful listing without items. *)
Definition emptyListing (r : Response) : Prop :=
  statusCode r = 200 /\ succeeded r /\ dataOf r = []
  /\ field "count" (body r) = Some (jint 0).

(* ===================================================================== *)
(** * server.js: the health check and the end of the middleware chain *)
(* ===================================================================== *)

Module Server.

Inductive Method : Type := GET | POST | PUT | PATCH | DELETE.

(** What a handler does with a request: it sends a JSON response, sends
    a file, hands over to the next handler, or returns without doing any
    of these, in which case the request is left without a response. *)
Inductive Reply : Type :=
| Json (r : Response)
| SendFile (file : string)
| Next
| NoReply.

(** [const NODE_ENV = process.env.NODE_ENV || 'development']. *)
Definition environment (env : Env) : string :=
  JS.orElse (NODE_ENV env) "development".

(** [GET /api/health]. *)
Definition health (env : Env) : Response :=
  send (JObj [("success", JBool true);
              ("message", JStr "Maschem API is running");
              ("timestamp", JStr (now env));
              ("environment", JStr (environment env));
              ("version", JStr "1.0.0")]).

(** [app.get('*', ...)]: the entry page for every path outside [/api]. *)
Definition frontend (path : string) : Reply :=
  if negb (String.prefix "/api" path) then SendFile "index.html"
  else NoReply.

(** The handler of [app.use('/api/*', ...)]. *)
Definition apiNotFound : Response :=
  mkResponse 404
    (JObj [("success", JBool false);
           ("error", JStr "API endpoint not found")]).

(** A mount path matches without regard to letter case. *)
Definition underApi (path : string) : bool :=
  String.prefix "/api/" (JS.toLowerCase path).

(** What a request meets that no route before [app.get('*')] has
    answered: the [GET] route on every path, then the handler mounted on
    [/api/*] for the other methods. *)
Definition unmatched (m : Method) (path : string) : Reply :=
  match m with
  | GET => frontend path
  | _ => if underApi path then Json apiNotFound else Next
  end.

End Server.

(* ===================================================================== *)
(** * Reading listings *)
(* ===================================================================== *)

(** The number is none of NaN and the infinities. *)
Definition isFinite (n : JS.number) : Prop := exists q, n = JS.Finite q.

(** The keys of [l] never decrease, resp. never increase, along [l]. *)
Definition ascending {A : Type} (key : A -> JS.number) (l : list A) : Prop :=
  StronglySorted (fun a b => JS.le (key a) (key b) = true) l.

Definition descending {A : Type} (key : A -> JS.number) (l : list A) : Prop :=
  StronglySorted (fun a b => JS.ge (key a) (key b) = true) l.

(** The tests of [GET /api/products] on one product: each filter whose
    query value is empty or missing lets every product through. *)
Definition passes (q : Products.Query) (p : Products.Product) : bool :=
  (if JS.truthy (Products.q_category q)
   then (JS.toLowerCase (Products.category p)
         =? JS.toLowerCase (Products.text (Products.q_category q)))%string
   else true)
  && (if JS.truthy (Products.q_search q)
      then JS.includes (JS.toLowerCase (Products.name p))
             (JS.toLowerCase (Products.text (Products.q_search q)))
           || JS.includes (JS.toLowerCase (Products.description p))
                (JS.toLowerCase (Products.text (Products.q_search q)))
      else true)
  && (if JS.truthy (Products.q_minPrice q)
      then JS.ge (Products.price p)
             (JS.parseFloat (Products.text (Products.q_minPrice q)))
      else true)
  && (if JS.truthy (Products.q_maxPrice q)
      then JS.le (Products.price p)
             (JS.parseFloat (Products.text (Products.q_maxPrice q)))
      else true).

(** The sort keys the [switch] of [GET /api/products] knows. *)
Definition sortKeys : list string :=
  ["price_asc"; "price_desc"; "name_asc"; "name_desc"].

(** The response of [GET /api/products/category/:category] for the
    products [items]. *)
Definition inCategory (categoryParam : string)
  (items : list Products.Product) : Response :=
  send (JObj [("success", JBool true);
              ("count", jcount items);
              ("category", JStr categoryParam);
              ("data", JArr (map Products.toJSON items))]).

(** The response of [GET /api/products/categories] for the names [cats]. *)
Definition categoryList (cats : list string) : Response :=
  send (JObj [("success", JBool true);
              ("count", jcount cats);
              ("data", JArr (map JStr cats))]).

(** A record an accepted contact form may produce: the bounds and the
    sets of the rule chains hold of its fields. *)
Definition wellFormed (s : Contact.Submission) : Prop :=
  (2 <= String.length (Contact.firstName s) <= 50)%nat
  /\ (2 <= String.length (Contact.lastName s) <= 50)%nat
  /\ In (Contact.subject s) Contact.subjects
  /\ (10 <= String.length (Contact.message s) <= 2000)%nat
  /\ Contact.status s = "pending"
  /\ Contact.updatedAt s = None
  /\ match Contact.phone s with
     | Some p => Validator.matchesPhone p = true
     | None => True
     end.

(* ===================================================================== *)
(** * The primitives and the routes on examples *)
(* ===================================================================== *)

Example parseInt_25 : JS.parseInt "2.5" = Some 2.
Proof. reflexivity. Qed.

Example toString_ex :
  map JS.toString [0; 7; 10; 12345; -42] = ["0"; "7"; "10"; "12345"; "-42"].
Proof. reflexivity. Qed.

Example parseInt_hex : JS.parseInt "  -0x1f" = Some (-31).
Proof. reflexivity. Qed.

Example parseInt_abc : JS.parseInt "abc" = None.
Proof. reflexivity. Qed.

Example parseFloat_abc : JS.parseFloat "abc" = JS.NaN.
Proof. reflexivity. Qed.

Example parseFloat_empty : JS.parseFloat "" = JS.NaN.
Proof. reflexivity. Qed.

Example parseFloat_dot : JS.parseFloat "." = JS.NaN.
Proof. reflexivity. Qed.

Example parseFloat_4999 :
  JS.ge (JS.parseFloat "49.99abc") (JS.Finite (4999 # 100)) = true
  /\ JS.le (JS.parseFloat " 49.99") (JS.Finite (4999 # 100)) = true.
Proof. split; reflexivity. Qed.

Example parseFloat_exp :
  JS.ge (JS.parseFloat "-.5e1") (JS.ofZ (-5)) = true
  /\ JS.le (JS.parseFloat "-.5e1") (JS.ofZ (-5)) = true.
Proof. split; vm_compute; reflexivity. Qed.

Example trim_ex : JS.trim "  a b  " = "a b".
Proof. reflexivity. Qed.

Example includes_ex : JS.includes "dish deluxe" "h del" = true.
Proof. reflexivity. Qed.

Example toLowerCase_ex : JS.toLowerCase "Bathroom Care" = "bathroom care".
Proof. reflexivity. Qed.

Example isNumeric_25 : Validator.isNumeric "2.5" = true.
Proof. reflexivity. Qed.

Example isNumeric_neg : Validator.isNumeric "-17" = true.
Proof. reflexivity. Qed.

Example isNumeric_bad :
  map Validator.isNumeric ["abc"; ""; "2."; "1e3"; "0x10"; " 2"; "1.2.3"]
  = [false; false; false; false; false; false; false].
Proof. reflexivity. Qed.

Example isFloat_ok :
  map (Validator.isFloatMin (JS.ofZ 0)) ["49.99"; "0"; "5."; ".5"; "1e2"; "+3"]
  = [true; true; true; true; true; true].
Proof. vm_compute. reflexivity. Qed.

Example isFloat_bad :
  map (Validator.isFloatMin (JS.ofZ 0)) ["-1"; ""; "."; "e5"; "12abc"; "1e"]
  = [false; false; false; false; false; false].
Proof. vm_compute. reflexivity. Qed.

Example matchesPhone_ex :
  map Validator.matchesPhone ["+27 11 123 4567"; "123456"; "(011) 123-4567x"]
  = [true; false; false].
Proof. reflexivity. Qed.

Example listAll_sorted :
  dataOf (fst (Products.listAll (host := Sample.host) Sample.env
                 (Products.mkQuery None (Some "GEL") (Some "30") None
                    (Some "price_desc"))
                 Sample.shelf))
  = [Products.toJSON Sample.gel].
Proof. vm_compute. reflexivity. Qed.

Example listAll_by_price :
  map (field "id")
    (dataOf (fst (Products.listAll (host := Sample.host) Sample.env
                    (Products.mkQuery None None None (Some "40")
                       (Some "price_asc"))
                    Sample.shelf)))
  = [Some (jint 2); Some (jint 3)].
Proof. vm_compute. reflexivity. Qed.

Example getById_text :
  map (fun idParam => statusCode (fst (Products.getById Sample.env idParam
                                         Sample.shelf)))
    ["2"; "+2"; "2.5"; "9"; ".5"; "two"; "0x2"]
  = [200; 200; 200; 404; 404; 400; 400].
Proof. reflexivity. Qed.

Example submit_example :
  Contact.submit (host := Sample.host) Sample.env Sample.form
    Sample.freshDisk
  = (Contact.accepted (Contact.newSubmission (host := Sample.host)
                         Sample.env Sample.form),
     Contact.Directory
       (mkFile (Some [Contact.newSubmission (host := Sample.host)
                        Sample.env Sample.form]) true 1)).
Proof. reflexivity. Qed.

(* ===================================================================== *)
(** * Facts about the primitives *)
(* ===================================================================== *)

Section ListFacts.
Context {A : Type}.
Implicit Types (l : list A) (p : A -> bool) (cmp : A -> A -> JS.number).

Lemma insert_perm cmp x l : Permutation (insert cmp x l) (x :: l).
Proof.
  induction l as [|y l IH]; simpl.
  - apply Permutation_refl.
  - destruct (JS.positive (cmp x y)).
    + eapply perm_trans; [apply perm_skip, IH | apply perm_swap].
    + apply Permutation_refl.
Qed.

Lemma sort_perm cmp l : Permutation (sort cmp l) l.
Proof.
  induction l as [|x l IH]; simpl.
  - constructor.
  - eapply perm_trans; [apply insert_perm | apply perm_skip, IH].
Qed.

Lemma sort_In cmp l x : In x (sort cmp l) <-> In x l.
Proof.
  split; apply Permutation_in;
    [apply sort_perm | apply Permutation_sym, sort_perm].
Qed.

Lemma findIndex_None p l :
  findIndex p l = None <-> (forall x, In x l -> p x = false).
Proof.
  induction l as [|y l IH]; simpl.
  - split; [intros _ x [] | reflexivity].
  - destruct (p y) eqn:Hy.
    + split; [discriminate |].
      intros H. rewrite (H y (or_introl eq_refl)) in Hy. discriminate.
    + destruct (findIndex p l) as [i|]; simpl.
      * split; [discriminate |].
        intros H. destruct IH as [_ IH].
        discriminate IH. intros x Hx. apply H. now right.
      * split; [| reflexivity].
        intros _ x [<- | Hx]; [exact Hy | now apply IH].
Qed.

(** The index [findIndex] answers lies inside the array, at the first
    element that passes the test. *)
Lemma findIndex_Some p l i :
  findIndex p l = Some i ->
  exists x, nth_error l i = Some x /\ find p l = Some x /\ p x = true.
Proof.
  revert i. induction l as [|y l IH]; simpl; intros i H; [discriminate |].
  destruct (p y) eqn:Hy.
  - injection H as <-. exists y. auto.
  - destruct (findIndex p l) as [j|]; [| discriminate].
    injection H as <-. destruct (IH j eq_refl) as (x & H1 & H2 & H3).
    exists x. auto.
Qed.

Lemma find_findIndex p l x :
  find p l = Some x ->
  exists i, findIndex p l = Some i /\ nth_error l i = Some x.
Proof.
  induction l as [|y l IH]; simpl; [discriminate |].
  destruct (p y) eqn:Hy.
  - intros [= <-]. exists 0%nat. auto.
  - intros H. destruct (IH H) as (i & -> & Hi). exists (S i). auto.
Qed.

Lemma In_has_index p l x :
  In x l -> p x = true -> exists i, findIndex p l = Some i.
Proof.
  intros Hin Hp. destruct (findIndex p l) as [i|] eqn:E; [eauto |].
  rewrite findIndex_None in E. rewrite (E x Hin) in Hp. discriminate.
Qed.

Lemma replaceAt_In i v l x :
  nth_error l i = Some x -> In v (replaceAt i v l).
Proof.
  revert i. induction l as [|y l IH]; intros [|i]; simpl; try discriminate.
  - intros _. now left.
  - intros H. right. eauto.
Qed.

End ListFacts.

Lemma distinct_In (l : list string) (x : string) :
  In x (distinct l) <-> In x l.
Proof.
  induction l as [|y l IH]; simpl; [tauto |].
  rewrite filter_In, IH. split.
  - intros [H | [H _]]; auto.
  - intros [H | H]; auto.
    destruct (String.eqb_spec x y) as [-> | Hne]; auto.
Qed.

Lemma NoDup_filter {A : Type} (p : A -> bool) (l : list A) :
  NoDup l -> NoDup (filter p l).
Proof.
  induction 1 as [|x l Hx Hl IH]; simpl; [constructor |].
  destruct (p x); [constructor |]; auto.
  rewrite filter_In. tauto.
Qed.

Lemma distinct_NoDup (l : list string) : NoDup (distinct l).
Proof.
  induction l as [|y l IH]; simpl; constructor.
  - rewrite filter_In. intros [_ H]. rewrite String.eqb_refl in H. discriminate.
  - now apply NoDup_filter.
Qed.

(* ===================================================================== *)
(** * Listing products *)
(* ===================================================================== *)

Section Listing.
Context {host : Host}.
Variable env : Env.

Import Products.

Lemma listAll_eq q st :
  listAll env q st
  = (listing (select q (catalog st))
       (distinct (map category (catalog st))), st).
Proof. reflexivity. Qed.

Lemma dataOf_listing items cats :
  dataOf (listing items cats) = map toJSON items.
Proof. reflexivity. Qed.

Lemma sortProducts_In k l p : In p (sortProducts k l) <-> In p l.
Proof.
  unfold sortProducts.
  repeat match goal with
         | |- context [if ?b then _ else _] => destruct b
         end; try apply sort_In; tauto.
Qed.

Lemma sortProducts_nil k : sortProducts k [] = [].
Proof.
  unfold sortProducts.
  repeat match goal with
         | |- context [if ?b then _ else _] => destruct b
         end; reflexivity.
Qed.

Ltac split_filters :=
  repeat match goal with
         | |- context [if JS.truthy ?o then _ else _] =>
             destruct (JS.truthy o) eqn:?
         end.

(** Every selected record is a record of the catalog. *)
Lemma select_incl q l p : In p (select q l) -> In p l.
Proof.
  unfold select. split_filters; intros H;
    repeat first [ apply sortProducts_In in H
                 | apply filter_In in H; destruct H as [H _] ];
    exact H.
Qed.

(** With a non-empty category key every selected record passed the
    category test. *)
Lemma select_category q l p :
  JS.truthy (q_category q) = true ->
  In p (select q l) ->
  JS.toLowerCase (category p) = JS.toLowerCase (text (q_category q)).
Proof.
  intros Hc. unfold select. rewrite Hc. split_filters; intros H;
    repeat first [ apply sortProducts_In in H
                 | apply filter_In in H; destruct H as [H ?] ];
    match goal with
    | E : (_ =? _)%string = true |- _ => now apply String.eqb_eq in E
    end.
Qed.

Lemma ge_NaN a : JS.ge a JS.NaN = false.
Proof. destruct a as [|[]|]; reflexivity. Qed.

Lemma le_NaN a : JS.le a JS.NaN = false.
Proof. destruct a as [|[]|]; reflexivity. Qed.

Lemma filter_none {A : Type} (f : A -> bool) (l : list A) :
  (forall x, f x = false) -> filter f l = [].
Proof.
  intros H. induction l as [|x l IH]; simpl; [| rewrite H]; auto.
Qed.

Lemma filter_nil {A : Type} (f : A -> bool) : filter f (@nil A) = [].
Proof. reflexivity. Qed.

(** A price bound that is NaN leaves nothing selected. *)
Lemma select_NaN q l :
  (JS.truthy (q_minPrice q) = true
   /\ JS.parseFloat (text (q_minPrice q)) = JS.NaN)
  \/ (JS.truthy (q_maxPrice q) = true
      /\ JS.parseFloat (text (q_maxPrice q)) = JS.NaN) ->
  select q l = [].
Proof.
  intros [[Ht Hn] | [Ht Hn]]; unfold select; rewrite Ht, Hn.
  - rewrite (filter_none (fun p => JS.ge (price p) JS.NaN))
      by (intros; apply ge_NaN).
    rewrite filter_nil.
    destruct (JS.truthy (q_maxPrice q)), (JS.truthy (q_sort q));
      auto using sortProducts_nil.
  - rewrite (filter_none (fun p => JS.le (price p) JS.NaN))
      by (intros; apply le_NaN).
    destruct (JS.truthy (q_sort q)); auto using sortProducts_nil.
Qed.

Lemma truthy_Some s : s <> "" -> JS.truthy (Some s) = true.
Proof.
  intros H. simpl.
  destruct (String.eqb_spec s ""); [contradiction | reflexivity].
Qed.

Lemma category_field p : field "category" (toJSON p) = Some (JStr (category p)).
Proof. reflexivity. Qed.

Lemma categoriesOf_listing l items :
  categoriesOf l (listing items (distinct (map category l))).
Proof.
  exists (distinct (map category l)). split; [reflexivity |].
  split; [apply distinct_NoDup |].
  intros c. rewrite distinct_In, in_map_iff. split.
  - intros (p & <- & Hp). eauto.
  - intros (p & Hp & <-). eauto.
Qed.

Lemma emptyListing_listing cats : emptyListing (listing [] cats).
Proof. repeat split. Qed.

(** C3, amended: for every catalog and every non-empty category filter
    value [X], [listAll] answers a successful listing and leaves the
    store as it was; every returned item is a record of the catalog
    whose category equals [X] up to letter case; and [categories] holds
    the distinct category names of the whole catalog, whatever the
    filters of the query are. *)
Theorem listAll_category q st X :
  q_category q = Some X -> X <> "" ->
  let r := fst (listAll env q st) in
  snd (listAll env q st) = st
  /\ statusCode r = 200 /\ succeeded r
  /\ Forall (matchesCategory X) (dataOf r)
  /\ Forall (fun j => exists p, In p (catalog st) /\ j = toJSON p) (dataOf r)
  /\ categoriesOf (catalog st) r.
Proof.
  intros Hq HX r. subst r. rewrite listAll_eq. cbn [fst snd].
  rewrite dataOf_listing.
  assert (Ht : JS.truthy (q_category q) = true)
    by (rewrite Hq; now apply truthy_Some).
  repeat split.
  - apply Forall_forall. intros j Hj.
    apply in_map_iff in Hj. destruct Hj as (p & <- & Hp).
    exists (category p). split; [apply category_field |].
    rewrite (select_category q _ p Ht Hp), Hq. reflexivity.
  - apply Forall_forall. intros j Hj.
    apply in_map_iff in Hj. destruct Hj as (p & <- & Hp).
    exists p. split; [now apply select_incl in Hp | reflexivity].
  - apply categoriesOf_listing.
Qed.

(** C4: when the products file cannot be read, reading it answers the
    empty array instead of an error, and for every query [listAll]
    answers a successful listing with zero items and no categories, and
    leaves the store as it was. *)
Theorem listAll_unreadable q st :
  content st = None ->
  getProductsData st = (Done [], st)
  /\ snd (listAll env q st) = st
  /\ emptyListing (fst (listAll env q st))
  /\ field "categories" (body (fst (listAll env q st))) = Some (JArr []).
Proof.
  intros Hc.
  assert (Hcat : catalog st = []) by (unfold catalog; now rewrite Hc).
  split.
  - unfold getProductsData, readAll. now rewrite Hc.
  - rewrite listAll_eq, Hcat. cbn [fst snd].
    assert (Hs : select q [] = []).
    { destruct (select q []) as [|p l] eqn:E; [reflexivity |].
      assert (Hp : In p (select q [])) by (rewrite E; now left).
      apply select_incl in Hp. destruct Hp. }
    rewrite Hs. repeat split.
Qed.

(** C10, amended: when the [minPrice] or the [maxPrice] query value is a
    non-empty string that [parseFloat] reads as NaN, [listAll] answers a
    successful listing with zero items, not a validation error, and
    leaves the store as it was. *)
Theorem listAll_NaN_bound q st m :
  m <> "" -> JS.parseFloat m = JS.NaN ->
  q_minPrice q = Some m \/ q_maxPrice q = Some m ->
  snd (listAll env q st) = st
  /\ emptyListing (fst (listAll env q st)).
Proof.
  intros Hm Hn Hq. rewrite listAll_eq. cbn [fst snd].
  rewrite select_NaN.
  - split; [reflexivity | apply emptyListing_listing].
  - destruct Hq as [Hq | Hq]; [left | right]; rewrite Hq;
      (split; [now apply truthy_Some | exact Hn]).
Qed.

End Listing.

Lemma listAll_category_witness :
  let q := Products.mkQuery (Some "sanitizers") None None None None in
  let r := fst (Products.listAll (host := Sample.host) Sample.env q
                  Sample.shelf) in
  dataOf r = [Products.toJSON Sample.gel]
  /\ Forall (matchesCategory "sanitizers") (dataOf r)
  /\ categoriesOf Sample.catalog r.
Proof.
  intros q r. split; [reflexivity |].
  pose proof (listAll_category (host := Sample.host) Sample.env q Sample.shelf
                "sanitizers" eq_refl) as H.
  assert (Hne : "sanitizers" <> "") by discriminate.
  destruct (H Hne) as (_ & _ & _ & H1 & _ & H2).
  split; [exact H1 | exact H2].
Defined.

(** With an empty [category] value the filter is skipped: every product
    is returned, whatever its category. *)
Lemma listAll_category_empty_key :
  ~ (forall (host : Host) (env : Env) (q : Products.Query)
            (st : Products.Store) (X : string),
        Products.q_category q = Some X ->
        Forall (matchesCategory X) (dataOf (fst (Products.listAll env q st)))).
Proof.
  intros H.
  specialize (H Sample.host Sample.env
                (Products.mkQuery (Some "") None None None None)
                Sample.shelf "" eq_refl).
  apply Forall_inv in H. destruct H as (c & Hc & Heq).
  cbn in Hc. injection Hc as <-. discriminate Heq.
Qed.

Lemma listAll_unreadable_witness :
  emptyListing
    (fst (Products.listAll (host := Sample.host) Sample.env
            (Products.mkQuery (Some "Sanitizers") None None None
               (Some "name_asc"))
            Sample.lostShelf)).
Proof.
  apply (listAll_unreadable (host := Sample.host) Sample.env
           (Products.mkQuery (Some "Sanitizers") None None None
              (Some "name_asc"))
           Sample.lostShelf).
  reflexivity.
Defined.

Lemma listAll_NaN_bound_witness :
  emptyListing
    (fst (Products.listAll (host := Sample.host) Sample.env
            (Products.mkQuery None None (Some "cheap") None None)
            Sample.shelf)).
Proof.
  apply (listAll_NaN_bound (host := Sample.host) Sample.env
           (Products.mkQuery None None (Some "cheap") None None)
           Sample.shelf "cheap").
  - discriminate.
  - reflexivity.
  - left. reflexivity.
Defined.

(** An empty [minPrice] value reads as NaN, but the bound is skipped and
    the products are returned. *)
Lemma listAll_NaN_bound_empty_key :
  ~ (forall (host : Host) (env : Env) (q : Products.Query)
            (st : Products.Store) (m : string),
        JS.parseFloat m = JS.NaN ->
        Products.q_minPrice q = Some m \/ Products.q_maxPrice q = Some m ->
        emptyListing (fst (Products.listAll env q st))).
Proof.
  intros H.
  specialize (H Sample.host Sample.env
                (Products.mkQuery None None (Some "") None None)
                Sample.shelf "" eq_refl (or_introl eq_refl)).
  destruct H as (_ & _ & H & _). discriminate H.
Qed.

(* ===================================================================== *)
(** * Integers as numbers *)
(* ===================================================================== *)

Section Doubles.

(** Up to [2^53] an integer is a number. *)
Lemma nearest_small a : a <= 2 ^ 53 -> JS.nearest a = a.
Proof.
  intros H. unfold JS.nearest.
  destruct (Z.leb_spec a (2 ^ 53)); [reflexivity | lia].
Qed.

Lemma toDouble_small z : Z.abs z <= 2 ^ 53 -> JS.toDouble z = z.
Proof.
  intros H. unfold JS.toDouble. rewrite nearest_small by exact H.
  rewrite Z.mul_comm. apply Z.abs_sgn.
Qed.

(** A multiple [m * 2^e] of a power of two with a mantissa [m] of 53
    bits, or the power of two that follows them, is a number. *)
Lemma nearest_multiple m e :
  0 <= e -> 2 ^ 52 <= m <= 2 ^ 53 -> m * 2 ^ e <= 2 ^ 1024 ->
  JS.nearest (m * 2 ^ e) = m * 2 ^ e.
Proof.
  intros He Hm Hcap. unfold JS.nearest.
  destruct (Z.leb_spec (m * 2 ^ e) (2 ^ 53)) as [| Hbig]; [reflexivity |].
  assert (Hu : 0 < 2 ^ e) by (apply Z.pow_pos_nonneg; lia).
  destruct (Z.eq_dec m (2 ^ 53)) as [-> | Hne].
  - assert (He1 : 2 ^ 53 * 2 ^ e = 2 ^ 52 * 2 ^ (e + 1)).
    { rewrite Z.pow_add_r by lia. change (2 ^ 53) with (2 ^ 52 * 2).
      change (2 ^ 1) with 2. ring. }
    assert (Hlog : Z.log2 (2 ^ 53 * 2 ^ e) = 53 + e).
    { rewrite <- Z.pow_add_r by lia. apply Z.log2_pow2. lia. }
    rewrite Hlog. replace (53 + e - 52) with (e + 1) by lia.
    rewrite He1.
    assert (Hu1 : 0 < 2 ^ (e + 1)) by (apply Z.pow_pos_nonneg; lia).
    rewrite Z.div_mul, Z.mod_mul by lia.
    destruct (Z.ltb_spec (2 * 0) (2 ^ (e + 1))); [| lia].
    rewrite <- He1. apply Z.min_l. exact Hcap.
  - assert (Hlog : Z.log2 (m * 2 ^ e) = 52 + e).
    { apply Z.log2_unique; [lia |].
      rewrite Z.pow_add_r, Z.pow_succ_r, Z.pow_add_r by lia.
      split; [nia |].
      assert (m < 2 ^ 53) by lia.
      change (2 ^ 53) with (2 * 2 ^ 52) in H. nia. }
    rewrite Hlog. replace (52 + e - 52) with e by lia.
    rewrite Z.div_mul, Z.mod_mul by lia.
    destruct (Z.ltb_spec (2 * 0) (2 ^ e)); [| lia].
    apply Z.min_l. exact Hcap.
Qed.

(** Rounding answers a number: rounding it again changes nothing. *)
Lemma nearest_fix a : 0 <= a -> JS.nearest (JS.nearest a) = JS.nearest a.
Proof.
  intros Ha.
  destruct (Z.le_gt_cases a (2 ^ 53)) as [Hs | Hbig].
  { rewrite (nearest_small a Hs). now apply nearest_small. }
  assert (H : exists m e, JS.nearest a = m * 2 ^ e /\ 0 <= e
                          /\ 2 ^ 52 <= m <= 2 ^ 53
                          /\ m * 2 ^ e <= 2 ^ 1024).
  { unfold JS.nearest.
    destruct (Z.leb_spec a (2 ^ 53)) as [| _]; [lia |].
    set (e := Z.log2 a - 52). set (u := 2 ^ e).
    assert (Hlog : 53 <= Z.log2 a) by (apply Z.log2_le_pow2; lia).
    assert (He : 1 <= e) by (unfold e; lia).
    assert (Hu : 0 < u) by (apply Z.pow_pos_nonneg; lia).
    assert (Hq : 2 ^ 52 <= a / u < 2 ^ 53).
    { destruct (Z.log2_spec a) as [Hlo Hhi]; [lia |].
      replace (Z.log2 a) with (52 + e) in Hlo by (unfold e; lia).
      replace (Z.succ (Z.log2 a)) with (53 + e) in Hhi by (unfold e; lia).
      rewrite Z.pow_add_r in Hlo, Hhi by lia. fold u in Hlo, Hhi.
      split.
      - apply Z.div_le_lower_bound; lia.
      - apply Z.div_lt_upper_bound; lia. }
    set (q' := if 2 * (a mod u) <? u then a / u
               else if u <? 2 * (a mod u) then a / u + 1
               else if Z.even (a / u) then a / u else a / u + 1).
    assert (Hq' : 2 ^ 52 <= q' <= 2 ^ 53).
    { unfold q'. destruct (2 * (a mod u) <? u); [lia |].
      destruct (u <? 2 * (a mod u)); [lia |].
      destruct (Z.even (a / u)); lia. }
    destruct (Z.min_spec (q' * u) (2 ^ 1024)) as [[Hlt ->] | [Hge ->]].
    - exists q', e. repeat split; lia.
    - exists (2 ^ 52), 972. repeat split; try lia; reflexivity. }
  destruct H as (m & e & -> & He & Hm & Hcap).
  now apply nearest_multiple.
Qed.

Lemma nearest_pos a : 0 < a -> 0 < JS.nearest a.
Proof.
  intros Ha. unfold JS.nearest.
  destruct (Z.leb_spec a (2 ^ 53)) as [Hs | Hbig]; [exact Ha |].
  set (e := Z.log2 a - 52). set (u := 2 ^ e).
  assert (Hlog : 53 <= Z.log2 a) by (apply Z.log2_le_pow2; lia).
  assert (Hu : 0 < u) by (apply Z.pow_pos_nonneg; unfold e; lia).
  assert (Hq : 2 ^ 52 <= a / u).
  { destruct (Z.log2_spec a) as [Hlo _]; [lia |].
    replace (Z.log2 a) with (52 + e) in Hlo by (unfold e; lia).
    rewrite Z.pow_add_r in Hlo by (unfold e; lia). fold u in Hlo.
    apply Z.div_le_lower_bound; lia. }
  apply Z.min_glb_lt; [| reflexivity].
  apply Z.mul_pos_pos; [| exact Hu].
  destruct (2 * (a mod u) <? u); [lia |].
  destruct (u <? 2 * (a mod u)); [lia |].
  destruct (Z.even (a / u)); lia.
Qed.

Theorem toDouble_idem z : JS.toDouble (JS.toDouble z) = JS.toDouble z.
Proof.
  unfold JS.toDouble.
  destruct (Z.lt_trichotomy z 0) as [Hz | [-> | Hz]]; [| reflexivity |].
  - pose proof (nearest_pos (Z.abs z) ltac:(lia)) as Hp.
    rewrite (Z.sgn_neg z) by lia.
    replace (-1 * JS.nearest (Z.abs z)) with (- JS.nearest (Z.abs z)) by lia.
    rewrite Z.sgn_neg, Z.abs_opp, (Z.abs_eq (JS.nearest _)) by lia.
    rewrite nearest_fix by lia. lia.
  - pose proof (nearest_pos (Z.abs z) ltac:(lia)) as Hp.
    rewrite (Z.sgn_pos z) by lia.
    replace (1 * JS.nearest (Z.abs z)) with (JS.nearest (Z.abs z)) by lia.
    rewrite Z.sgn_pos, (Z.abs_eq (JS.nearest _)) by lia.
    rewrite nearest_fix by lia. lia.
Qed.

(** Adding one to [2^53] gives [2^53]. *)
Example add_brim : JS.add 9007199254740992 1 = 9007199254740992.
Proof. reflexivity. Qed.

Example toDouble_odd : JS.toDouble 9007199254740995 = 9007199254740996.
Proof. reflexivity. Qed.

Lemma add_one_safe z : safe z -> JS.add z 1 = z + 1.
Proof.
  intros [H1 H2]. unfold JS.add. apply toDouble_small. lia.
Qed.

(** The identifier of a product is a number. *)
Lemma id_double p : JS.toDouble (Products.id p) = Products.id p.
Proof. apply toDouble_idem. Qed.

End Doubles.

(* ===================================================================== *)
(** * Printing an integer and reading it back *)
(* ===================================================================== *)

Section Decimal.

Lemma code_digitChar d :
  0 <= d < 10 -> JS.code (JS.digitChar d) = (Z.to_nat d + 48)%nat.
Proof.
  intros H. unfold JS.code, JS.digitChar.
  apply nat_ascii_embedding. lia.
Qed.

Lemma isDigit_digitChar d : 0 <= d < 10 -> JS.isDigit (JS.digitChar d) = true.
Proof.
  intros H. unfold JS.isDigit. rewrite code_digitChar by exact H.
  apply andb_true_intro. split; apply Nat.leb_le; lia.
Qed.

Lemma digitOf_digitChar d :
  0 <= d < 10 -> JS.digitOf 10 (JS.digitChar d) = Some d.
Proof.
  intros H. unfold JS.digitOf.
  rewrite isDigit_digitChar, code_digitChar by exact H.
  replace (Z.of_nat (Z.to_nat d + 48) - 48) with d by lia.
  destruct (Z.ltb_spec d 10); [reflexivity | lia].
Qed.

(** A digit is none of the characters the readers treat specially. *)
Lemma digit_plain c :
  JS.isDigit c = true ->
  JS.isSpace c = false
  /\ (c =? "-")%char = false /\ (c =? "+")%char = false
  /\ (c =? "x")%char = false /\ (c =? "X")%char = false
  /\ (c =? ".")%char = false.
Proof.
  intros H. unfold JS.isDigit in H. apply andb_prop in H.
  destruct H as [H1 H2]. apply Nat.leb_le in H1, H2.
  split.
  - unfold JS.isSpace.
    destruct (Nat.leb_spec (JS.code c) 13); [lia |].
    rewrite andb_false_r. simpl.
    apply Nat.eqb_neq. lia.
  - repeat split; apply Ascii.eqb_neq; intros ->;
      vm_compute in H1, H2; lia.
Qed.

Lemma allDigits_digitsOf fuel n acc :
  0 <= n ->
  Validator.allDigits (JS.digitsOf fuel n acc) = Validator.allDigits acc.
Proof.
  revert n acc. induction fuel as [|fuel IH]; intros n acc Hn; simpl.
  - reflexivity.
  - assert (Hd : JS.isDigit (JS.digitChar (n mod 10)) = true)
      by (apply isDigit_digitChar, Z.mod_pos_bound; lia).
    destruct (n <? 10).
    + simpl. now rewrite Hd.
    + rewrite IH by (apply Z.div_pos; lia). simpl. now rewrite Hd.
Qed.

Lemma digitsOf_cons fuel n acc :
  exists c rest, JS.digitsOf (S fuel) n acc = String c rest.
Proof.
  revert n acc. induction fuel as [|fuel IH]; intros n acc.
  - simpl. destruct (n <? 10); eauto.
  - change (JS.digitsOf (S (S fuel)) n acc)
      with (let acc' := String (JS.digitChar (n mod 10)) acc in
            if n <? 10 then acc' else JS.digitsOf (S fuel) (n / 10) acc').
    cbv zeta. destruct (n <? 10); eauto.
Qed.

(** Reading the digits of [n] gives [n] back. *)
Lemma digitsAcc_digitsOf fuel n acc :
  0 <= n < 2 ^ Z.of_nat (S fuel) ->
  JS.digitsAcc 10 (JS.digitsOf (S fuel) n acc) None
  = JS.digitsAcc 10 acc (Some n).
Proof.
  revert n acc. induction fuel as [|fuel IH]; intros n acc Hn.
  - assert (n < 10) by (change (2 ^ Z.of_nat 1) with 2 in Hn; lia).
    simpl JS.digitsOf. destruct (Z.ltb_spec n 10); [| lia].
    rewrite Z.mod_small by lia. cbn [JS.digitsAcc].
    rewrite digitOf_digitChar by lia. reflexivity.
  - change (JS.digitsOf (S (S fuel)) n acc)
      with (let acc' := String (JS.digitChar (n mod 10)) acc in
            if n <? 10 then acc' else JS.digitsOf (S fuel) (n / 10) acc').
    cbv zeta. destruct (Z.ltb_spec n 10).
    + rewrite Z.mod_small by lia. cbn [JS.digitsAcc].
      rewrite digitOf_digitChar by lia. reflexivity.
    + rewrite IH.
      * cbn [JS.digitsAcc].
        rewrite digitOf_digitChar by (apply Z.mod_pos_bound; lia).
        f_equal. f_equal. symmetry. apply Z.div_mod. lia.
      * split; [apply Z.div_pos; lia |].
        rewrite Nat2Z.inj_succ, Z.pow_succ_r in Hn by lia.
        apply Z.div_lt_upper_bound; lia.
Qed.

Lemma pointTail_no_digit t a :
  pointTail t ->
  JS.digitsAcc 10 t a = a /\ JS.spanDigits t = ([], t)
  /\ forall c, JS.stripHex (String c t) = (10, String c t).
Proof.
  intros [-> | [r ->]]; repeat split; intros c; simpl.
  now rewrite andb_false_r.
Qed.

Lemma digits_plain ds t :
  Validator.allDigits ds = true -> ds <> "" -> pointTail t ->
  JS.skipSpace (ds ++ t)%string = (ds ++ t)%string
  /\ JS.splitSign (ds ++ t)%string = (false, (ds ++ t)%string)
  /\ JS.stripHex (ds ++ t)%string = (10, (ds ++ t)%string).
Proof.
  destruct ds as [|c ds]; [contradiction |]. simpl.
  intros H _ Ht. apply andb_prop in H. destruct H as [Hc Hs].
  destruct (digit_plain c Hc) as (-> & -> & -> & _).
  repeat split.
  destruct ds as [|d ds].
  - apply (pointTail_no_digit t None Ht).
  - simpl in Hs. apply andb_prop in Hs. destruct Hs as [Hd _].
    destruct (digit_plain d Hd) as (_ & _ & _ & Hx & HX & _).
    simpl. rewrite Hx, HX. now rewrite andb_false_r.
Qed.

Lemma spanDigits_digits ds t :
  Validator.allDigits ds = true -> pointTail t ->
  snd (JS.spanDigits (ds ++ t)%string) = t
  /\ List.length (fst (JS.spanDigits (ds ++ t)%string)) = String.length ds.
Proof.
  intros H Ht. induction ds as [|c ds IH]; simpl.
  - destruct (pointTail_no_digit t None Ht) as (_ & -> & _). auto.
  - simpl in H. apply andb_prop in H. destruct H as [Hc Hs]. rewrite Hc.
    destruct (JS.spanDigits (ds ++ t)%string) as [l r]. simpl in *.
    destruct (IH Hs) as [-> ->]. auto.
Qed.

Lemma isDigit_digitOf c :
  JS.isDigit c = true -> exists d, JS.digitOf 10 c = Some d.
Proof.
  intros H. unfold JS.digitOf. rewrite H.
  unfold JS.isDigit in H. apply andb_prop in H. destruct H as [_ H].
  apply Nat.leb_le in H.
  destruct (Z.ltb_spec (Z.of_nat (JS.code c) - 48) 10); [eauto | lia].
Qed.

Lemma digitsAcc_digits ds t a :
  Validator.allDigits ds = true -> pointTail t ->
  JS.digitsAcc 10 (ds ++ t)%string a = JS.digitsAcc 10 ds a.
Proof.
  intros H Ht. revert a. induction ds as [|c ds IH]; intros a.
  - apply (pointTail_no_digit t a Ht).
  - simpl in H. apply andb_prop in H. destruct H as [Hc Hs].
    destruct (isDigit_digitOf c Hc) as [d Hd].
    cbn [JS.digitsAcc append]. rewrite Hd. now apply IH.
Qed.

(** The digits of [toString]: all digits, at least one, worth [|z|]. *)
Lemma toString_digits z :
  exists ds,
    JS.toString z = (if z <? 0 then String "-" ds else ds)
    /\ Validator.allDigits ds = true
    /\ ds <> ""
    /\ JS.digitsAcc 10 ds None = Some (Z.abs z).
Proof.
  unfold JS.toString.
  set (n := Z.abs z). set (fuel := Z.to_nat (Z.log2 n)).
  exists (JS.digitsOf (S fuel) n "").
  assert (Hn : 0 <= n) by apply Z.abs_nonneg.
  split; [reflexivity |]. split; [now apply allDigits_digitsOf |]. split.
  - destruct (digitsOf_cons fuel n "") as (c & rest & ->). discriminate.
  - rewrite digitsAcc_digitsOf; [reflexivity |].
    split; [exact Hn |]. subst fuel.
    rewrite Nat2Z.inj_succ, Z2Nat.id by apply Z.log2_nonneg.
    destruct (Z.eq_dec n 0) as [-> | Hne]; [reflexivity |].
    apply Z.log2_spec. lia.
Qed.

(** [parseInt] reads the integer in front of the point, as a number. *)
Lemma parseInt_toString_tail z t :
  pointTail t ->
  JS.parseInt (JS.toString z ++ t)%string = Some (JS.toDouble z).
Proof.
  intros Ht.
  destruct (toString_digits z) as (ds & -> & Hall & Hne & Hval).
  destruct (digits_plain ds t Hall Hne Ht) as (Hsp & Hsg & Hhx).
  pose proof (digitsAcc_digits ds t None Hall Ht) as Hacc.
  unfold JS.parseInt. destruct (Z.ltb_spec z 0).
  - change (String "-" ds ++ t)%string with (String "-" (ds ++ t)).
    change (JS.skipSpace (String "-" (ds ++ t)))
      with (String "-" (ds ++ t)).
    change (JS.splitSign (String "-" (ds ++ t))) with (true, (ds ++ t)%string).
    cbv beta iota. rewrite Hhx, Hacc, Hval. cbn [option_map]. do 2 f_equal. lia.
  - rewrite Hsp, Hsg, Hhx, Hacc, Hval. cbn [option_map]. do 2 f_equal. lia.
Qed.

(** An integer, and an integer followed by a point and digits, pass
    [isNumeric]. *)
Lemma isNumeric_toString_tail z t :
  t = "" \/ fraction t ->
  Validator.isNumeric (JS.toString z ++ t)%string = true.
Proof.
  intros Ht.
  assert (Hp : pointTail t)
    by (destruct Ht as [-> | (r & -> & _)]; [now left | right; eauto]).
  destruct (toString_digits z) as (ds & -> & Hall & Hne & _).
  destruct (digits_plain ds t Hall Hne Hp) as (_ & Hsg & _).
  destruct (spanDigits_digits ds t Hall Hp) as [Hr Hl].
  assert (Hgoal : (let (ip, r1) := JS.spanDigits (ds ++ t)%string in
                   match r1 with
                   | EmptyString => negb (Nat.eqb (List.length ip) 0)
                   | String c r2 =>
                       if (c =? ".")%char
                       then Validator.nonEmpty r2 && Validator.allDigits r2
                       else false
                   end) = true).
  { destruct (JS.spanDigits (ds ++ t)%string) as [ip r1].
    simpl in Hr, Hl. subst r1.
    destruct Ht as [-> | (r & -> & Hr & Hd)].
    - rewrite Hl. destruct ds; [contradiction | reflexivity].
    - simpl. rewrite Hd. destruct r; [contradiction | reflexivity]. }
  unfold Validator.isNumeric. destruct (z <? 0).
  - simpl. exact Hgoal.
  - rewrite Hsg. exact Hgoal.
Qed.

Lemma append_empty s : (s ++ "")%string = s.
Proof. induction s as [|c s IH]; simpl; [| rewrite IH]; reflexivity. Qed.

Theorem parseInt_toString z :
  JS.parseInt (JS.toString z) = Some (JS.toDouble z).
Proof.
  rewrite <- (append_empty (JS.toString z)).
  apply parseInt_toString_tail. now left.
Qed.

Theorem isNumeric_toString z : Validator.isNumeric (JS.toString z) = true.
Proof.
  rewrite <- (append_empty (JS.toString z)).
  apply isNumeric_toString_tail. now left.
Qed.

End Decimal.

(* ===================================================================== *)
(** * Creating, updating and deleting products *)
(* ===================================================================== *)

Section MaxId.

Lemma fold_max_ge l z :
  z <= fold_left Z.max l z
  /\ forall x, In x l -> x <= fold_left Z.max l z.
Proof.
  revert z. induction l as [|y l IH]; intros z; simpl.
  - split; [lia | intros x []].
  - destruct (IH (Z.max z y)) as [H1 H2]. split; [lia |].
    intros x [<- | Hx]; [lia | auto].
Qed.

Lemma fold_max_In l z :
  fold_left Z.max l z = z \/ In (fold_left Z.max l z) l.
Proof.
  revert z. induction l as [|y l IH]; intros z; simpl; [auto |].
  destruct (IH (Z.max z y)) as [H | H]; [| auto].
  rewrite H. destruct (Z.max_spec z y) as [[_ ->] | [_ ->]]; auto.
Qed.

(** [maxId] is an identifier of the catalog and no identifier exceeds
    it; on the empty catalog it is [0]. *)
Lemma maxId_spec (l : list Products.Product) :
  (forall p, In p l -> Products.id p <= Products.maxId l)
  /\ (l = [] -> Products.maxId l = 0)
  /\ (l <> [] -> exists p, In p l /\ Products.maxId l = Products.id p).
Proof.
  destruct l as [|q l].
  - split; [intros p [] |]. split; [reflexivity | congruence].
  - unfold Products.maxId, Products.maxOf. cbn [map].
    destruct (fold_max_ge (map Products.id l) (Products.id q)) as [H1 H2].
    split; [| split; [discriminate |]].
    + intros p [<- | Hp]; [exact H1 |]. apply H2. now apply in_map.
    + intros _.
      destruct (fold_max_In (map Products.id l) (Products.id q)) as [H | H].
      * exists q. split; [now left | exact H].
      * apply in_map_iff in H. destruct H as (p & Hp & Hin).
        exists p. split; [now right | now symmetry].
Qed.

Lemma upTo_S n : upTo (S n) = upTo n ++ [Z.of_nat (S n)].
Proof. unfold upTo. rewrite seq_S, map_app. reflexivity. Qed.

Lemma upTo_In n x : In x (upTo n) <-> 1 <= x <= Z.of_nat n.
Proof.
  unfold upTo. rewrite in_map_iff. split.
  - intros (k & <- & Hk). apply in_seq in Hk. lia.
  - intros H. exists (Z.to_nat x). split; [lia |]. apply in_seq. lia.
Qed.

Lemma maxId_upTo (l : list Products.Product) n :
  map Products.id l = upTo n -> Products.maxId l = Z.of_nat n.
Proof.
  intros H. destruct (maxId_spec l) as (Hge & Hnil & Hin).
  destruct l as [|q l].
  - destruct n; [reflexivity | discriminate].
  - destruct Hin as (p & Hp & Hmax); [discriminate |].
    assert (Hn : In (Z.of_nat n) (map Products.id (q :: l))).
    { rewrite H. apply upTo_In. destruct n; [discriminate | lia]. }
    apply in_map_iff in Hn. destruct Hn as (x & Hx & Hxin).
    specialize (Hge x Hxin).
    apply (in_map Products.id) in Hp. rewrite H in Hp. apply upTo_In in Hp.
    lia.
Qed.

End MaxId.

Section Crud.
Variable env : Env.

Import Products.

Lemma idErrors_nil idParam :
  Validator.isNumeric idParam = true -> idErrors idParam = [].
Proof. intros H. unfold idErrors. now rewrite H. Qed.

Lemma hasId_parse idParam n p :
  JS.parseInt idParam = Some n -> hasId idParam p = (id p =? n).
Proof. intros H. unfold hasId. now rewrite H. Qed.

Lemma create_run b st :
  createErrors b = [] ->
  create env b st
  = (created (newProduct env (catalog st) b),
     snd (writeAll (catalog st ++ [newProduct env (catalog st) b]) st)).
Proof.
  intros H. unfold create. rewrite H.
  unfold handleValidationErrors, guarded, bind, getProductsData,
    saveProductsData, readAll, writeAll, ret, catalog.
  destruct (writable st); reflexivity.
Qed.

Lemma create_invalid b st :
  createErrors b <> [] ->
  create env b st = (validationResponse (createErrors b), st).
Proof.
  intros H. unfold create, handleValidationErrors.
  destruct (createErrors b); [contradiction | reflexivity].
Qed.

Lemma catalog_writeAll {A : Type} (l : list A) (st : File (list A)) :
  catalog (snd (writeAll l st)) = if writable st then l else catalog st.
Proof. unfold writeAll. destruct (writable st); reflexivity. Qed.

Lemma writable_writeAll {A : Type} (l : list A) (st : File (list A)) :
  writable (snd (writeAll l st)) = writable st.
Proof. unfold writeAll. destruct (writable st) eqn:E; simpl; auto. Qed.

Lemma content_writeAll_locked {A : Type} (l : list A) (st : File (list A)) :
  writable st = false -> content (snd (writeAll l st)) = content st.
Proof. intros H. unfold writeAll. now rewrite H. Qed.

Lemma getById_run idParam st :
  Validator.isNumeric idParam = true ->
  getById env idParam st
  = (match find (hasId idParam) (catalog st) with
     | Some product => found product
     | None => notFound
     end, st).
Proof.
  intros H. unfold getById. rewrite (idErrors_nil _ H).
  unfold handleValidationErrors, guarded, bind, getProductsData, readAll, ret.
  fold (catalog st). destruct (find (hasId idParam) (catalog st)); reflexivity.
Qed.

Lemma delete_run idParam st i p :
  Validator.isNumeric idParam = true ->
  findIndex (hasId idParam) (catalog st) = Some i ->
  nth_error (catalog st) i = Some p ->
  delete env idParam st
  = (deleted p, snd (writeAll (removeAt i (catalog st)) st)).
Proof.
  intros H Hi Hp. unfold delete. rewrite (idErrors_nil _ H).
  unfold handleValidationErrors, guarded, bind, getProductsData,
    saveProductsData, readAll, ret.
  fold (catalog st). rewrite Hi, Hp.
  unfold writeAll. destruct (writable st); reflexivity.
Qed.

Lemma delete_missing idParam st :
  Validator.isNumeric idParam = true ->
  findIndex (hasId idParam) (catalog st) = None ->
  delete env idParam st = (notFound, st).
Proof.
  intros H Hi. unfold delete. rewrite (idErrors_nil _ H).
  unfold handleValidationErrors, guarded, bind, getProductsData, readAll, ret.
  fold (catalog st). now rewrite Hi.
Qed.

Lemma update_run idParam b st i p :
  updateErrors idParam b = [] ->
  findIndex (hasId idParam) (catalog st) = Some i ->
  nth_error (catalog st) i = Some p ->
  update env idParam b st
  = (updated (updatedProduct env p b),
     snd (writeAll (replaceAt i (updatedProduct env p b) (catalog st)) st)).
Proof.
  intros H Hi Hp. unfold update. rewrite H.
  unfold handleValidationErrors, guarded, bind, getProductsData,
    saveProductsData, readAll, ret.
  fold (catalog st). rewrite Hi, Hp.
  unfold writeAll. destruct (writable st); reflexivity.
Qed.

(** The digits of an identifier are read back as the identifier. *)
Lemma parseInt_id p : JS.parseInt (JS.toString (id p)) = Some (id p).
Proof. rewrite parseInt_toString. f_equal. apply id_double. Qed.


Lemma id_newProduct l b : id (newProduct env l b) = JS.add (maxId l) 1.
Proof. unfold id, newProduct, JS.add. cbn [literal]. apply toDouble_idem. Qed.

Lemma maxId_safe l : safeCatalog l -> safe (maxId l).
Proof.
  intros H. destruct (maxId_spec l) as (_ & Hnil & Hin).
  destruct l as [|q l].
  - rewrite Hnil by reflexivity. unfold safe. lia.
  - destruct Hin as (p & Hp & ->); [discriminate |]. now apply H.
Qed.

(** Among safe identifiers the new one is the greatest plus one. *)
Lemma id_newProduct_safe l b :
  safeCatalog l -> id (newProduct env l b) = maxId l + 1.
Proof.
  intros H. rewrite id_newProduct. now apply add_one_safe, maxId_safe.
Qed.

(** After a valid create on a catalog of safe identifiers the new
    identifier is above every identifier of the catalog. *)
Lemma fresh_id_above l b p :
  safeCatalog l -> In p l -> id p < id (newProduct env l b).
Proof.
  intros Hs Hp. rewrite id_newProduct_safe by exact Hs.
  destruct (maxId_spec l) as (Hge & _). specialize (Hge p Hp). lia.
Qed.

Lemma NoDup_snoc (l : list Z) (x : Z) :
  NoDup l -> ~ In x l -> NoDup (l ++ [x]).
Proof.
  intros Hl Hx. apply NoDup_app; [exact Hl | repeat constructor; intros [] |].
  intros y Hy [<- | []]. contradiction.
Qed.

Lemma create_keeps_NoDup b st :
  safeCatalog (catalog st) ->
  NoDup (map id (catalog st)) ->
  NoDup (map id (catalog (snd (create env b st)))).
Proof.
  intros Hs H. destruct (createErrors b) as [|e es] eqn:E.
  - rewrite create_run by exact E. cbn [snd]. rewrite catalog_writeAll.
    destruct (writable st); [| exact H].
    rewrite map_app. apply NoDup_snoc; [exact H |].
    cbn [map]. intros Hin. apply in_map_iff in Hin.
    destruct Hin as (p & Hid & Hp).
    pose proof (fresh_id_above _ b p Hs Hp) as Hlt.
    lia.
  - rewrite create_invalid by (rewrite E; discriminate). exact H.
Qed.

End Crud.

Section CreateIds.

Import Products.

Lemma creates_ids calls : forall (st : Store) (k : nat),
  writable st = true ->
  map id (catalog st) = upTo k ->
  Forall (fun c => createErrors (snd c) = []) calls ->
  Z.of_nat (k + List.length calls) <= 2 ^ 53 ->
  map id (catalog (creates calls st)) = upTo (k + List.length calls).
Proof.
  induction calls as [|[env b] calls IH]; intros st k Hw Hids Hvalid Hk.
  - simpl. now rewrite Nat.add_0_r.
  - inversion Hvalid as [|c cs Hb Hrest]; subst. simpl in Hb.
    cbn [creates List.length] in *. rewrite Nat.add_succ_r in *.
    apply (IH _ (S k)).
    + rewrite create_run by exact Hb. cbn [snd].
      now rewrite writable_writeAll.
    + rewrite create_run by exact Hb. cbn [snd].
      rewrite catalog_writeAll, Hw, map_app, Hids, upTo_S.
      cbn [map]. rewrite id_newProduct, (maxId_upTo _ k Hids).
      do 2 f_equal. unfold JS.add. rewrite toDouble_small by lia. lia.
    + exact Hrest.
    + exact Hk.
Qed.

Lemma NoDup_upTo n : NoDup (upTo n).
Proof.
  unfold upTo. apply Finite.Injective_map_NoDup; [| apply seq_NoDup].
  intros a b H. lia.
Qed.

(** C2, amended: a valid create answers the new record, whose
    identifier is the sum, as numbers, of the greatest identifier of
    the catalog ([0] on an empty catalog) and one, and appends it to the
    stored catalog; when the identifiers of the catalog are safe
    integers (from [-2^53] to [2^53 - 1]) the new identifier is exactly
    the greatest plus one and lies above every identifier in use; from
    an empty catalog, [N] successive valid creates, [N] at most [2^53],
    leave a catalog whose identifiers are [1], ..., [N] in this order,
    with no duplicates; and every create, valid or not, on a catalog of
    safe identifiers keeps the identifiers of the stored catalog
    pairwise distinct. *)
Theorem create_ids :
  (forall env b (st : Store),
      createErrors b = [] ->
      let p := newProduct env (catalog st) b in
      fst (create env b st) = created p
      /\ id p = JS.add (maxId (catalog st)) 1
      /\ (catalog st = [] -> id p = 1)
      /\ (writable st = true ->
          catalog (snd (create env b st)) = catalog st ++ [p])
      /\ (safeCatalog (catalog st) ->
          (forall x, In x (catalog st) -> id x < id p)
          /\ (catalog st <> [] ->
              exists x, In x (catalog st) /\ id p = id x + 1)))
  /\ (forall calls (st : Store),
         catalog st = [] -> writable st = true ->
         Forall (fun c => createErrors (snd c) = []) calls ->
         Z.of_nat (List.length calls) <= 2 ^ 53 ->
         map id (catalog (creates calls st)) = upTo (List.length calls)
         /\ NoDup (map id (catalog (creates calls st))))
  /\ (forall env b (st : Store),
         safeCatalog (catalog st) ->
         NoDup (map id (catalog st)) ->
         NoDup (map id (catalog (snd (create env b st))))).
Proof.
  split; [| split].
  - intros env b st Hb p. rewrite create_run by exact Hb. cbn [fst snd].
    destruct (maxId_spec (catalog st)) as (Hge & Hnil & Hin).
    split; [reflexivity |]. split; [apply id_newProduct |].
    split; [| split].
    + intros H. subst p. rewrite id_newProduct, (Hnil H). reflexivity.
    + intros Hw. now rewrite catalog_writeAll, Hw.
    + intros Hs. split.
      * intros x Hx. now apply fresh_id_above.
      * intros H. destruct (Hin H) as (x & Hx & Hmax).
        exists x. split; [exact Hx |]. subst p.
        rewrite id_newProduct_safe by exact Hs. now rewrite Hmax.
  - intros calls st Hnil Hw Hvalid Hn.
    assert (H : map id (catalog (creates calls st))
                = upTo (0 + List.length calls))
      by (apply creates_ids;
          [exact Hw | now rewrite Hnil | exact Hvalid | exact Hn]).
    simpl in H. rewrite H. split; [reflexivity | apply NoDup_upTo].
  - intros env b st. apply create_keeps_NoDup.
Qed.

End CreateIds.

Lemma create_ids_witness :
  let st := mkFile (Some []) true 0 in
  let calls := [(Sample.env, Sample.body); (Sample.env, Sample.body);
                (Sample.env, Sample.body)] in
  map Products.id (catalog (creates calls st)) = [1; 2; 3]
  /\ fst (Products.create Sample.env Sample.body Sample.shelf)
     = Products.created
         (Products.newProduct Sample.env Sample.catalog Sample.body)
  /\ Products.id (Products.newProduct Sample.env Sample.catalog Sample.body) = 4
  /\ NoDup (map Products.id
              (catalog (snd (Products.create Sample.env Sample.body
                               Sample.shelf)))).
Proof.
  intros st calls.
  destruct create_ids as (Hone & Hmany & Hinv).
  assert (Hsafe : safeCatalog (catalog Sample.shelf)).
  { intros p [<- | [<- | [<- | []]]];
      (split; [apply Z.leb_le | apply Z.ltb_lt]; reflexivity). }
  split; [| split; [| split]].
  - apply (Hmany calls st); [reflexivity | reflexivity | |].
    + repeat constructor.
    + apply Z.leb_le. reflexivity.
  - apply (Hone Sample.env Sample.body Sample.shelf). reflexivity.
  - reflexivity.
  - apply (Hinv Sample.env Sample.body Sample.shelf); [exact Hsafe |].
    repeat constructor; simpl; intuition discriminate.
Defined.

(** From [2^53] on the sum with one is the identifier itself: a create
    on a catalog that holds the identifier [2^53] answers a record with
    the same identifier and stores it, so that neither is the new
    identifier above those in use nor do the stored identifiers stay
    pairwise distinct. *)
Lemma create_ids_beyond_exact :
  ~ (forall env b (st : Products.Store),
        Products.createErrors b = [] ->
        forall x, In x (catalog st) ->
                  Products.id x
                  < Products.id (Products.newProduct env (catalog st) b))
  /\ ~ (forall env b (st : Products.Store),
           NoDup (map Products.id (catalog st)) ->
           NoDup (map Products.id
                    (catalog (snd (Products.create env b st))))).
Proof.
  split.
  - intros H.
    specialize (H Sample.env Sample.body Sample.fullShelf eq_refl
                  Sample.brim (or_introl eq_refl)).
    vm_compute in H. discriminate H.
  - intros H.
    specialize (H Sample.env Sample.body Sample.fullShelf).
    assert (Hd : NoDup (map Products.id (catalog Sample.fullShelf)))
      by (repeat constructor; intros []).
    specialize (H Hd).
    change (NoDup [9007199254740992; 9007199254740992]) in H.
    inversion H as [| ? ? Hnot _]. apply Hnot. now left.
Qed.

(* ===================================================================== *)
(** * Contact submissions *)
(* ===================================================================== *)

Section Submissions.
Context {host : Host}.
Variable env : Env.

Import Contact.

(** Making the data directory changes nothing of the file as the
    handlers meet it. *)
Lemma seen_opened (st : Store) : seen (opened st) = seen st.
Proof. destruct st as [[|] w n | f]; reflexivity. Qed.

Lemma opened_opened (st : Store) : opened (opened st) = opened st.
Proof. destruct st as [[|] w n | f]; reflexivity. Qed.

Lemma getSubmissions_run (st : Store) :
  getSubmissions st = (Done (catalog st), opened st).
Proof. destruct st as [[|] w n | f]; reflexivity. Qed.

Lemma saveSubmissions_run l (st : Store) :
  saveSubmissions l st = (Done (writable st), snd (saveSubmissions l st)).
Proof. destruct st as [[|] [|] n | [c [|] n]]; reflexivity. Qed.

Lemma saveSubmissions_opened l (st : Store) :
  saveSubmissions l (opened st) = saveSubmissions l st.
Proof. destruct st as [[|] w n | f]; reflexivity. Qed.

Lemma catalog_save l (st : Store) :
  catalog (snd (saveSubmissions l st)) = if writable st then l else catalog st.
Proof. destruct st as [[|] [|] n | [c [|] n]]; reflexivity. Qed.

Lemma writable_save l (st : Store) :
  writable (snd (saveSubmissions l st)) = writable st.
Proof. destruct st as [[|] [|] n | [c [|] n]]; reflexivity. Qed.

Lemma content_save l (st : Store) :
  writable st = true -> content (snd (saveSubmissions l st)) = Some l.
Proof.
  destruct st as [[|] [|] n | [c [|] n]]; intros H;
    solve [reflexivity | discriminate H].
Qed.

Lemma content_save_locked l (st : Store) :
  writable st = false -> content (snd (saveSubmissions l st)) = content st.
Proof.
  destruct st as [[|] [|] n | [c [|] n]]; intros H;
    solve [reflexivity | discriminate H].
Qed.

(** Once a save was tried the directory is there, or cannot be made. *)
Lemma opened_save l (st : Store) :
  opened (snd (saveSubmissions l st)) = snd (saveSubmissions l st).
Proof. destruct st as [[|] [|] n | [c [|] n]]; reflexivity. Qed.

Lemma submit_run f (st : Store) :
  submitErrors f = [] ->
  submit env f st
  = (if writable st then accepted (newSubmission env f)
     else errorHandler env (newError env "Failed to save submission"),
     snd (saveSubmissions (catalog st ++ [newSubmission env f]) st)).
Proof.
  intros H. unfold submit. rewrite H.
  unfold handleValidationErrors, guarded, bind.
  rewrite getSubmissions_run, saveSubmissions_opened, saveSubmissions_run.
  destruct (writable st); reflexivity.
Qed.

Lemma updateStatus_run idParam newStatus (st : Store) i old :
  statusErrors newStatus = [] ->
  findIndex (hasId idParam) (catalog st) = Some i ->
  nth_error (catalog st) i = Some old ->
  updateStatus env idParam newStatus st
  = (updated (restamp env old (text newStatus)),
     snd (saveSubmissions (replaceAt i (restamp env old (text newStatus))
                             (catalog st)) st)).
Proof.
  intros H Hi Hold. unfold updateStatus. rewrite H.
  unfold handleValidationErrors, guarded, bind.
  rewrite getSubmissions_run, Hi, Hold.
  unfold bind. rewrite saveSubmissions_opened, saveSubmissions_run.
  reflexivity.
Qed.

Lemma updateStatus_missing idParam newStatus (st : Store) :
  statusErrors newStatus = [] ->
  findIndex (hasId idParam) (catalog st) = None ->
  updateStatus env idParam newStatus st = (notFound, opened st).
Proof.
  intros H Hi. unfold updateStatus. rewrite H.
  unfold handleValidationErrors, guarded, bind.
  rewrite getSubmissions_run, Hi. reflexivity.
Qed.

Lemma remove_run idParam (st : Store) i old :
  findIndex (hasId idParam) (catalog st) = Some i ->
  nth_error (catalog st) i = Some old ->
  delete env idParam st
  = (deleted old, snd (saveSubmissions (removeAt i (catalog st)) st)).
Proof.
  intros Hi Hold. unfold delete, guarded, bind.
  rewrite getSubmissions_run, Hi, Hold.
  unfold bind. rewrite saveSubmissions_opened, saveSubmissions_run.
  reflexivity.
Qed.

Lemma remove_missing idParam (st : Store) :
  findIndex (hasId idParam) (catalog st) = None ->
  delete env idParam st = (notFound, opened st).
Proof.
  intros Hi. unfold delete, guarded, bind.
  rewrite getSubmissions_run, Hi. reflexivity.
Qed.

Lemma submissions_eq statusKey sortKey (st : Store) :
  listAll env statusKey sortKey st
  = (listing (select statusKey sortKey (catalog st)), opened st).
Proof.
  unfold listAll, guarded, bind. rewrite getSubmissions_run. reflexivity.
Qed.

(** A record is selected exactly when it is stored and, under a
    non-empty status key, has that status. *)
Lemma select_In statusKey sortKey l x :
  In x (select statusKey sortKey l)
  <-> In x l /\ (JS.truthy statusKey = true -> status x = text statusKey).
Proof.
  unfold select.
  destruct (match sortKey with
            | Some k => (k =? "oldest")%string
            | None => false
            end);
    rewrite sort_In; destruct (JS.truthy statusKey).
  all: try (rewrite filter_In, String.eqb_eq; tauto).
  all: split; [intros H; split; [exact H | discriminate] | tauto].
Qed.


Lemma rule_nil ok path msg : rule ok path msg = [] <-> ok = true.
Proof. unfold rule. destruct ok; split; auto; discriminate. Qed.



End Submissions.

Section SubmissionProperties.
Context {host : Host}.
Variable env : Env.

Import Contact.

Lemma isIn_In s l : Validator.isIn s l = true <-> In s l.
Proof.
  unfold Validator.isIn. rewrite existsb_exists. split.
  - intros (x & Hx & E). apply String.eqb_eq in E. now subst.
  - intros H. exists s. split; [exact H | apply String.eqb_refl].
Qed.



(** C7: [updateStatus] with a status outside pending, read, responded
    and archived is refused with the 400 of a failed rule and leaves the
    store as it was; with the status archived on a stored identifier,
    when the file can be written, it answers success with the first
    record of that identifier, now archived and stamped with the time of
    the request, and a later [listAll] with the status filter archived
    returns that record, whatever its sort order. *)
Theorem updateStatus_archived :
  (forall idParam newStatus (st : Store),
      ~ In (text newStatus) statuses ->
      updateStatus env idParam newStatus st = (statusRejected, st)
      /\ statusCode statusRejected = 400 /\ failed statusRejected)
  /\ (forall env' idParam sortKey (st : Store),
         writable st = true ->
         In idParam (map id (catalog st)) ->
         exists old,
           find (hasId idParam) (catalog st) = Some old
           /\ let stamped := restamp env old "archived" in
              let st' := snd (updateStatus env idParam (Some "archived") st) in
              fst (updateStatus env idParam (Some "archived") st)
              = updated stamped
              /\ statusCode (updated stamped) = 200
              /\ succeeded (updated stamped)
              /\ status stamped = "archived"
              /\ updatedAt stamped = Some (now env)
              /\ succeeded (fst (listAll env' (Some "archived") sortKey st'))
              /\ In (toJSON stamped)
                   (dataOf (fst (listAll env' (Some "archived") sortKey st')))).
Proof.
  split.
  - intros idParam newStatus st Hout.
    assert (E : statusErrors newStatus = [("status", "Invalid status")]).
    { unfold statusErrors, rule.
      destruct (Validator.isIn (text newStatus) statuses) eqn:Hin;
        [| reflexivity].
      apply isIn_In in Hin. contradiction. }
    unfold updateStatus, handleValidationErrors. rewrite E. repeat split.
  - intros env' idParam sortKey st Hw Hin.
    apply in_map_iff in Hin. destruct Hin as (x & Hx & Hxin).
    assert (Hhas : hasId idParam x = true)
      by (unfold hasId; rewrite Hx; apply String.eqb_refl).
    destruct (In_has_index _ _ _ Hxin Hhas) as [i Hi].
    destruct (findIndex_Some _ _ _ Hi) as (old & Hnth & Hfind & _).
    exists old. split; [exact Hfind |]. intros stamped st'. subst st'.
    rewrite (updateStatus_run env idParam (Some "archived") st i old
               eq_refl Hi Hnth).
    cbn [fst snd text]. fold stamped.
    rewrite submissions_eq. cbn [fst].
    repeat split.
    change (dataOf (listing ?l)) with (map toJSON l).
    apply in_map, select_In. split.
    + rewrite catalog_save, Hw. now apply replaceAt_In with (x := old).
    + reflexivity.
Qed.


End SubmissionProperties.



Lemma updateStatus_archived_witness :
  In (Contact.toJSON (Contact.restamp Sample.env Sample.note "archived"))
    (dataOf (fst (Contact.listAll (host := Sample.host) Sample.env
                    (Some "archived") None
                    (snd (Contact.updateStatus Sample.env "a1"
                            (Some "archived") Sample.inbox)))))
  /\ Contact.updateStatus Sample.env "a1" (Some "bogus") Sample.inbox
     = (statusRejected, Sample.inbox).
Proof.
  destruct (updateStatus_archived (host := Sample.host) Sample.env)
    as [Hbad Hgood].
  split.
  - destruct (Hgood Sample.env "a1" None Sample.inbox eq_refl
                (or_introl eq_refl))
      as (old & Hold & H).
    injection Hold as <-. apply H.
  - apply (Hbad "a1" (Some "bogus") Sample.inbox).
    simpl. intuition discriminate.
Defined.


(* ===================================================================== *)
(** * Identifiers in request paths, missing records, failed writes *)
(* ===================================================================== *)

Section Paths.
Variable env : Env.

Lemma product_absent (st : Products.Store) n :
  ~ In (JS.toDouble n) (map Products.id (catalog st)) ->
  findIndex (Products.hasId (JS.toString n)) (catalog st) = None.
Proof.
  intros H. apply findIndex_None. intros p Hp.
  rewrite (hasId_parse _ (JS.toDouble n)) by apply parseInt_toString.
  apply Z.eqb_neq. intros E. apply H. rewrite <- E. now apply in_map.
Qed.

Lemma submission_absent (st : Contact.Store) s :
  ~ In s (map Contact.id (catalog st)) ->
  findIndex (Contact.hasId s) (catalog st) = None.
Proof.
  intros H. apply findIndex_None. intros x Hx.
  unfold Contact.hasId. apply String.eqb_neq. intros E. apply H.
  rewrite <- E. now apply in_map.
Qed.

(** C5, amended: in every state of the product store, for every
    integer text whose number is the identifier of no product, and more
    generally for every path text that passes the numeric check and
    that [parseInt] reads as the identifier of no product, [delete]
    answers the 404 with [success] false and leaves the store exactly as
    it was: the content and the count of the writes made are the same.
    In every state of the submission store and for every string that is
    the identifier of no submission, [delete] answers the 404 with
    [success] false and leaves the submissions file as it was, content
    and count of writes; of the disk it changes this only, that the
    data directory is made when it was missing and can be made; a disk
    that has the directory is left exactly as it was. *)
Theorem delete_absent :
  (forall (st : Products.Store) (n : Z),
      ~ In (JS.toDouble n) (map Products.id (catalog st)) ->
      Products.delete env (JS.toString n) st = (Products.notFound, st))
  /\ (forall (st : Products.Store) (idParam : string),
         Validator.isNumeric idParam = true ->
         (forall p, In p (catalog st) ->
                    JS.parseInt idParam <> Some (Products.id p)) ->
         Products.delete env idParam st = (Products.notFound, st))
  /\ (forall (st : Contact.Store) (s : string),
         ~ In s (map Contact.id (catalog st)) ->
         Contact.delete env s st = (Contact.notFound, Contact.opened st)
         /\ (Contact.opened st = st :> File (list Contact.Submission))
         /\ (forall creatable fileWritable written,
                st = Contact.NoDirectory creatable fileWritable written ->
                Contact.opened st
                = if creatable
                  then Contact.Directory (mkFile None fileWritable written)
                  else st)
         /\ (forall f, st = Contact.Directory f -> Contact.opened st = st))
  /\ statusCode Products.notFound = 404 /\ failed Products.notFound
  /\ statusCode Contact.notFound = 404 /\ failed Contact.notFound.
Proof.
  split; [| split; [| split; [| repeat split]]].
  - intros st n H. apply delete_missing.
    + apply isNumeric_toString.
    + now apply product_absent.
  - intros st idParam Hn H. apply delete_missing; [exact Hn |].
    apply findIndex_None. intros p Hp. specialize (H p Hp).
    unfold Products.hasId. destruct (JS.parseInt idParam) as [k|]; [| easy].
    apply Z.eqb_neq. congruence.
  - intros st s H. split; [| split; [| split]].
    + apply remove_missing. now apply submission_absent.
    + apply seen_opened.
    + intros c w n ->. destruct c; reflexivity.
    + intros f ->. reflexivity.
Qed.


Lemma signed_point sign r :
  In sign [""; "+"; "-"] -> r <> "" -> Validator.allDigits r = true ->
  Validator.isNumeric (sign ++ String "." r)%string = true
  /\ JS.parseInt (sign ++ String "." r)%string = None.
Proof.
  intros Hs Hr Hd.
  assert (Hn : Validator.nonEmpty r = true) by (destruct r; easy).
  simpl in Hs. destruct Hs as [<- | [<- | [<- | []]]];
    (split;
     [ unfold Validator.isNumeric;
       cbn [append JS.splitSign JS.spanDigits Ascii.eqb Bool.eqb];
       change (JS.isDigit ".") with false;
       cbn [Ascii.eqb Bool.eqb]; now rewrite Hn, Hd
     | unfold JS.parseInt; cbn; destruct r; reflexivity ]).
Qed.



End Paths.

Section FailedWrites.
Context {host : Host}.
Variable env : Env.

Lemma saveFailure_response :
  statusCode (errorHandler env (newError env "Failed to save submission"))
  = 500
  /\ failed (errorHandler env (newError env "Failed to save submission")).
Proof. split; reflexivity. Qed.

(** C1, what the code does: when the file cannot be written, the
    submission of a valid contact form is answered with the 500 of the
    error handler and [success] false; but a valid product create is
    answered 201 with [success] true, and a product update, a product
    delete, a status update and a submission delete that find their
    record are answered 200 with [success] true, while the stored
    content is what it was before. *)
Theorem write_failure_outcomes :
  (forall f (st : Contact.Store),
      writable st = false -> Contact.submitErrors f = [] ->
      let r := fst (Contact.submit env f st) in
      statusCode r = 500 /\ failed r
      /\ content (snd (Contact.submit env f st)) = content st)
  /\ (forall b (st : Products.Store),
         writable st = false -> Products.createErrors b = [] ->
         let r := fst (Products.create env b st) in
         statusCode r = 201 /\ succeeded r
         /\ content (snd (Products.create env b st)) = content st)
  /\ (forall idParam b p (st : Products.Store),
         writable st = false -> Products.updateErrors idParam b = [] ->
         find (Products.hasId idParam) (catalog st) = Some p ->
         let r := fst (Products.update env idParam b st) in
         statusCode r = 200 /\ succeeded r
         /\ content (snd (Products.update env idParam b st)) = content st)
  /\ (forall idParam p (st : Products.Store),
         writable st = false -> Validator.isNumeric idParam = true ->
         find (Products.hasId idParam) (catalog st) = Some p ->
         let r := fst (Products.delete env idParam st) in
         statusCode r = 200 /\ succeeded r
         /\ content (snd (Products.delete env idParam st)) = content st)
  /\ (forall idParam newStatus x (st : Contact.Store),
         writable st = false -> Contact.statusErrors newStatus = [] ->
         find (Contact.hasId idParam) (catalog st) = Some x ->
         let r := fst (Contact.updateStatus env idParam newStatus st) in
         statusCode r = 200 /\ succeeded r
         /\ content (snd (Contact.updateStatus env idParam newStatus st))
            = content st)
  /\ (forall idParam x (st : Contact.Store),
         writable st = false ->
         find (Contact.hasId idParam) (catalog st) = Some x ->
         let r := fst (Contact.delete env idParam st) in
         statusCode r = 200 /\ succeeded r
         /\ content (snd (Contact.delete env idParam st)) = content st).
Proof.
  repeat apply conj.
  - intros f st Hw Hf r. subst r.
    rewrite submit_run by exact Hf. rewrite Hw. cbn [fst snd].
    destruct saveFailure_response as [H1 H2].
    split; [exact H1 |]. split; [exact H2 |].
    now apply content_save_locked.
  - intros b st Hw Hb r. subst r.
    rewrite create_run by exact Hb. cbn [fst snd].
    rewrite content_writeAll_locked by exact Hw. repeat split.
  - intros idParam b p st Hw Hb Hp r. subst r.
    destruct (find_findIndex _ _ _ Hp) as (i & Hi & Hnth).
    rewrite (update_run env idParam b st i p Hb Hi Hnth). cbn [fst snd].
    rewrite content_writeAll_locked by exact Hw. repeat split.
  - intros idParam p st Hw Hn Hp r. subst r.
    destruct (find_findIndex _ _ _ Hp) as (i & Hi & Hnth).
    rewrite (delete_run env idParam st i p Hn Hi Hnth). cbn [fst snd].
    rewrite content_writeAll_locked by exact Hw. repeat split.
  - intros idParam newStatus x st Hw Hs Hx r. subst r.
    destruct (find_findIndex _ _ _ Hx) as (i & Hi & Hnth).
    rewrite (updateStatus_run env idParam newStatus st i x Hs Hi Hnth).
    cbn [fst snd].
    rewrite content_save_locked by exact Hw. repeat split.
  - intros idParam x st Hw Hx r. subst r.
    destruct (find_findIndex _ _ _ Hx) as (i & Hi & Hnth).
    rewrite (remove_run env idParam st i x Hi Hnth). cbn [fst snd].
    rewrite content_save_locked by exact Hw. repeat split.
Qed.

End FailedWrites.

Lemma delete_absent_witness :
  Products.delete Sample.env "7" Sample.shelf
  = (Products.notFound, Sample.shelf)
  /\ Contact.delete Sample.env "zz" Sample.inbox
     = (Contact.notFound, Sample.inbox)
  /\ Contact.delete Sample.env "zz" Sample.freshDisk
     = (Contact.notFound, Contact.Directory (mkFile None true 0)).
Proof.
  destruct (delete_absent Sample.env) as (Hp & _ & Hc & _).
  split; [| split].
  - apply (Hp Sample.shelf 7). simpl. intuition discriminate.
  - apply (Hc Sample.inbox "zz"). simpl. intuition discriminate.
  - apply (Hc Sample.freshDisk "zz"). simpl. intuition.
Defined.

(** On a disk without the data directory the [delete] of an identifier
    that is not stored answers the 404 and makes the directory: the
    store is not what it was. *)
Lemma delete_absent_makes_directory :
  ~ (forall env (st : Contact.Store) (s : string),
        ~ In s (map Contact.id (catalog st)) ->
        Contact.delete env s st = (Contact.notFound, st)).
Proof.
  intros H.
  specialize (H Sample.env Sample.freshDisk "zz" (fun F => F)).
  discriminate H.
Qed.



Lemma write_failure_outcomes_witness :
  fst (Products.create Sample.env Sample.body Sample.lockedShelf)
  = Products.created (Products.newProduct Sample.env Sample.catalog Sample.body)
  /\ succeeded (fst (Products.create Sample.env Sample.body Sample.lockedShelf))
  /\ catalog (snd (Products.create Sample.env Sample.body Sample.lockedShelf))
     = Sample.catalog
  /\ failed (fst (Contact.submit (host := Sample.host) Sample.env Sample.form
                    Sample.lockedInbox)).
Proof.
  destruct (write_failure_outcomes (host := Sample.host) Sample.env)
    as (Hsubmit & Hcreate & _).
  destruct (Hcreate Sample.body Sample.lockedShelf eq_refl eq_refl)
    as (_ & Hok & _).
  destruct (Hsubmit Sample.form Sample.lockedInbox eq_refl eq_refl)
    as (_ & Hko & _).
  split; [reflexivity |]. split; [exact Hok |].
  split; [reflexivity | exact Hko].
Defined.

(* ===================================================================== *)
(** * The error handler and the end of the chain *)
(* ===================================================================== *)

Section ErrorHandler.
Variable env : Env.

(** X1: whatever the error, the handler answers [success] false with a
    non-empty [error] text; and unless [NODE_ENV] is development the body
    has these two keys only: neither the stack nor the details go out. *)
Theorem errorHandler_redacts (err : Error) :
  let r := errorHandler env err in
  failed r
  /\ (exists msg, field "error" (body r) = Some (JStr msg) /\ msg <> "")
  /\ (NODE_ENV env <> Some "development" ->
      keys (body r) = ["success"; "error"]).
Proof.
  intros r. subst r.
  assert (Hdev : NODE_ENV env <> Some "development" -> development env = false).
  { unfold development. destruct (NODE_ENV env) as [v|]; [| reflexivity].
    intros H. apply String.eqb_neq. congruence. }
  split; [| split].
  - unfold errorHandler.
    repeat match goal with
           | |- context [if ?b then _ else _] => destruct b
           | |- context [match ?o with Some _ => _ | None => _ end] =>
               destruct o
           end; reflexivity.
  - assert (Hm : exists msg,
               (if (err_message err =? "")%string
                then "Internal Server Error" else err_message err) = msg
               /\ msg <> "").
    { destruct (err_message err =? "")%string eqn:E.
      - eexists. split; [reflexivity | discriminate].
      - eexists. split; [reflexivity | now apply String.eqb_neq]. }
    destruct Hm as (m & Hm & Hne).
    unfold errorHandler. rewrite Hm.
    destruct (err_statusCode err) as [c|]; [destruct (c =? 0) |];
      destruct (err_name err =? "ValidationError")%string;
      destruct (err_name err =? "SyntaxError")%string;
      destruct (err_body err);
      destruct (err_code err) as [k|];
      try destruct (k =? "ENOENT")%string;
      cbn [andb body field lookup app String.eqb Ascii.eqb Bool.eqb];
      eexists; (split; [reflexivity | first [exact Hne | discriminate]]).
  - intros H. apply Hdev in H. unfold errorHandler. rewrite H.
    repeat match goal with
           | |- context [if ?b then _ else _] => destruct b
           | |- context [match ?o with Some _ => _ | None => _ end] =>
               destruct o
           end; reflexivity.
Qed.

(** X2: an error whose [code] is ENOENT is answered 404 whatever its name
    and its own status are; without that code a ValidationError is
    answered 400; and an error that is none of ValidationError, a
    SyntaxError with a body, or ENOENT is answered with its own status
    when it has one that is not zero, and with 500 otherwise. *)
Theorem errorHandler_status (err : Error) :
  let r := errorHandler env err in
  (err_code err = Some "ENOENT" ->
   statusCode r = 404
   /\ field "error" (body r) = Some (JStr "Resource not found"))
  /\ (err_code err <> Some "ENOENT" -> err_name err = "ValidationError" ->
      statusCode r = 400
      /\ field "error" (body r) = Some (JStr "Validation Error"))
  /\ (err_code err <> Some "ENOENT" -> err_name err <> "ValidationError" ->
      (err_name err = "SyntaxError" -> err_body err = false) ->
      statusCode r = match err_statusCode err with
                     | Some c => if c =? 0 then 500 else c
                     | None => 500
                     end).
Proof.
  intros r. subst r. split; [| split].
  - intros H. unfold errorHandler. rewrite H.
    change ("ENOENT" =? "ENOENT")%string with true. cbv iota.
    repeat match goal with
           | |- context [if ?b then _ else _] => destruct b
           | |- context [match ?o with Some _ => _ | None => _ end] =>
               destruct o
           end; split; reflexivity.
  - intros Hc Hn. unfold errorHandler. rewrite Hn.
    change ("ValidationError" =? "ValidationError")%string with true.
    change ("ValidationError" =? "SyntaxError")%string with false.
    cbn [andb]. cbv iota.
    assert (Hk : match err_code err with
                 | Some k => (k =? "ENOENT")%string
                 | None => false
                 end = false).
    { destruct (err_code err) as [k|]; [| reflexivity].
      apply String.eqb_neq. congruence. }
    destruct (err_code err) as [k|]; [rewrite Hk |];
      repeat match goal with
             | |- context [if ?b then _ else _] => destruct b
             | |- context [match ?o with Some _ => _ | None => _ end] =>
                 destruct o
             end; split; reflexivity.
  - intros Hc Hn Hs. unfold errorHandler.
    assert (Hv : (err_name err =? "ValidationError")%string = false)
      by now apply String.eqb_neq.
    assert (Hsy : (err_name err =? "SyntaxError")%string && err_body err
                  = false).
    { destruct (String.eqb_spec (err_name err) "SyntaxError") as [E|E];
        [now rewrite (Hs E) | reflexivity]. }
    rewrite Hv, Hsy.
    destruct (err_code err) as [k|].
    + assert (Hk : (k =? "ENOENT")%string = false)
        by (apply String.eqb_neq; congruence).
      rewrite Hk.
      destruct (err_statusCode err) as [c|]; [destruct (c =? 0) |];
        destruct (err_message err =? "")%string; reflexivity.
    + destruct (err_statusCode err) as [c|]; [destruct (c =? 0) |];
        destruct (err_message err =? "")%string; reflexivity.
Qed.

End ErrorHandler.

Lemma errorHandler_redacts_witness :
  keys (body (errorHandler Sample.env
                (newError Sample.env "Failed to save submission")))
  = ["success"; "error"].
Proof.
  apply (errorHandler_redacts Sample.env
           (newError Sample.env "Failed to save submission")).
  discriminate.
Defined.

Lemma errorHandler_status_witness :
  statusCode (errorHandler Sample.env
                (mkError "ValidationError" "no such file" (Some 403)
                   (Some "ENOENT") false None None))
  = 404.
Proof.
  apply (errorHandler_status Sample.env
           (mkError "ValidationError" "no such file" (Some 403)
              (Some "ENOENT") false None None)).
  reflexivity.
Defined.

Section EndOfChain.

Lemma prefix_same c s1 s2 :
  String.prefix (String c s1) (String c s2) = String.prefix s1 s2.
Proof.
  cbn [String.prefix]. destruct (ascii_dec c c); [reflexivity | contradiction].
Qed.

Lemma api_prefix path :
  String.prefix "/api/" path = true ->
  String.prefix "/api" path = true /\ Server.underApi path = true.
Proof.
  intros H.
  repeat (destruct path as [|? path]; [discriminate H |];
          cbn [String.prefix] in H;
          match type of H with
          | (if ?d then _ else _) = true =>
              destruct d as [<- |]; [| discriminate H]
          end).
  split; [reflexivity |].
  unfold Server.underApi. cbn [JS.toLowerCase].
  change (JS.lowerChar "/") with "/"%char.
  change (JS.lowerChar "a") with "a"%char.
  change (JS.lowerChar "p") with "p"%char.
  change (JS.lowerChar "i") with "i"%char.
  rewrite !prefix_same. destruct (JS.toLowerCase path); reflexivity.
Qed.

(** X3: a [GET] request on a path under [/api/] that no route has
    answered is left without any response, since the route for the entry
    page takes it and sends nothing; the JSON 404 of the API is what the
    other methods get; and a [GET] on a path that does not start with
    [/api] gets the entry page. *)
Theorem api_get_unanswered (path : string) :
  (String.prefix "/api/" path = true ->
   Server.unmatched Server.GET path = Server.NoReply
   /\ forall m, m <> Server.GET ->
                Server.unmatched m path = Server.Json Server.apiNotFound)
  /\ (String.prefix "/api" path = false ->
      Server.unmatched Server.GET path = Server.SendFile "index.html")
  /\ statusCode Server.apiNotFound = 404 /\ failed Server.apiNotFound.
Proof.
  split; [| split; [| split; reflexivity]].
  - intros H. destruct (api_prefix path H) as [Hp Hu]. split.
    + unfold Server.unmatched, Server.frontend. now rewrite Hp.
    + intros m Hm. unfold Server.unmatched. rewrite Hu.
      destruct m; [contradiction | reflexivity ..].
  - intros H. unfold Server.unmatched, Server.frontend. now rewrite H.
Qed.

(** X4: when [NODE_ENV] is not set, the health check reports the
    environment development, while the error handler, which reads the
    variable itself, answers as outside development: without the stack. *)
Theorem health_environment (env : Env) (err : Error) :
  NODE_ENV env = None ->
  field "environment" (body (Server.health env)) = Some (JStr "development")
  /\ succeeded (Server.health env)
  /\ keys (body (errorHandler env err)) = ["success"; "error"].
Proof.
  intros H. split; [| split].
  - unfold Server.health, Server.environment. rewrite H. reflexivity.
  - reflexivity.
  - apply errorHandler_redacts. rewrite H. discriminate.
Qed.

End EndOfChain.

Lemma api_get_unanswered_witness :
  Server.unmatched Server.GET "/api/orders" = Server.NoReply
  /\ Server.unmatched Server.POST "/api/orders"
     = Server.Json Server.apiNotFound
  /\ Server.unmatched Server.GET "/about" = Server.SendFile "index.html".
Proof.
  destruct (api_get_unanswered "/api/orders") as (Hapi & _).
  destruct (Hapi eq_refl) as [Hget Hother].
  destruct (api_get_unanswered "/about") as (_ & Hpage & _).
  split; [exact Hget |]. split.
  - apply Hother. discriminate.
  - apply Hpage. reflexivity.
Defined.

Lemma health_environment_witness :
  field "environment"
    (body (Server.health (mkEnv None "2024-05-01T08:00:00.000Z" "u" "s")))
  = Some (JStr "development").
Proof.
  apply (health_environment (mkEnv None "2024-05-01T08:00:00.000Z" "u" "s")
           (newError Sample.env "x")).
  reflexivity.
Defined.

(* ===================================================================== *)
(** * Sorting and filtering in the listings *)
(* ===================================================================== *)

Section Sorting.
Context {A : Type}.
Variable cmp : A -> A -> JS.number.
Variable R : A -> A -> Prop.
Variable P : A -> Prop.

Hypothesis cmp_R : forall x y, P x -> P y ->
  if JS.positive (cmp x y) then R y x else R x y.
Hypothesis R_trans : forall x y z, P x -> P y -> P z ->
  R x y -> R y z -> R x z.

Lemma insert_sorted x l :
  P x -> Forall P l -> StronglySorted R l ->
  StronglySorted R (insert cmp x l).
Proof.
  intros Hx Hl Hs. induction Hs as [|y l Hs IH Hy]; simpl.
  - repeat constructor.
  - inversion Hl as [|? ? Py Pl]; subst.
    pose proof (cmp_R x y Hx Py) as Hxy.
    destruct (JS.positive (cmp x y)).
    + constructor; [now apply IH |].
      apply Forall_forall. intros z Hz.
      apply (Permutation_in _ (insert_perm cmp x l)) in Hz.
      destruct Hz as [<- | Hz]; [exact Hxy |].
      rewrite Forall_forall in Hy. now apply Hy.
    + constructor; [now constructor |].
      constructor; [exact Hxy |].
      rewrite Forall_forall in *. intros z Hz.
      apply (R_trans x y z); auto.
Qed.

Lemma sort_sorted l : Forall P l -> StronglySorted R (sort cmp l).
Proof.
  induction 1 as [|x l Hx Hl IH]; simpl; [constructor |].
  apply insert_sorted; [exact Hx | | exact IH].
  rewrite Forall_forall in *. intros z Hz. apply Hl.
  now apply (sort_In cmp l z).
Qed.

End Sorting.

Section SortKeys.
Context {A : Type}.
Variable key : A -> JS.number.

Lemma positive_sub x y :
  JS.positive (JS.sub (JS.Finite x) (JS.Finite y)) = negb (Qle_bool x y).
Proof.
  cbn [JS.sub JS.positive]. f_equal.
  destruct (Qle_bool x y) eqn:E.
  - apply Qle_bool_iff in E. apply Qle_bool_iff. lra.
  - destruct (Qle_bool (x - y) 0) eqn:E'; [| reflexivity].
    apply Qle_bool_iff in E'.
    assert (H : Qle_bool x y = true) by (apply Qle_bool_iff; lra).
    congruence.
Qed.

Lemma Qle_bool_total x y : Qle_bool x y = false -> Qle_bool y x = true.
Proof.
  intros H. apply Qle_bool_iff.
  destruct (Qlt_le_dec y x) as [Hlt | Hle].
  - lra.
  - apply Qle_bool_iff in Hle. congruence.
Qed.

(** Sorting by the difference of the keys puts finite keys in ascending
    order. *)
Lemma sort_ascending l :
  Forall (fun a => isFinite (key a)) l ->
  ascending key (sort (fun a b => JS.sub (key a) (key b)) l).
Proof.
  apply sort_sorted.
  - intros a b [x Hx] [y Hy]. rewrite Hx, Hy, positive_sub.
    unfold JS.le. cbn [JS.ge].
    destruct (Qle_bool x y) eqn:E; cbn [negb]; [reflexivity |].
    now apply Qle_bool_total.
  - intros a b c [x Hx] [y Hy] [z Hz]. rewrite Hx, Hy, Hz.
    unfold JS.le. cbn [JS.ge]. rewrite !Qle_bool_iff. lra.
Qed.

(** Sorting by the opposite difference puts them in descending order. *)
Lemma sort_descending l :
  Forall (fun a => isFinite (key a)) l ->
  descending key (sort (fun a b => JS.sub (key b) (key a)) l).
Proof.
  apply sort_sorted.
  - intros a b [x Hx] [y Hy]. rewrite Hx, Hy, positive_sub.
    cbn [JS.ge].
    destruct (Qle_bool y x) eqn:E; cbn [negb]; [reflexivity |].
    now apply Qle_bool_total.
  - intros a b c [x Hx] [y Hy] [z Hz]. rewrite Hx, Hy, Hz.
    cbn [JS.ge]. rewrite !Qle_bool_iff. lra.
Qed.

End SortKeys.

Section ProductListings.
Context {host : Host}.
Variable env : Env.

Import Products.

Lemma filter_fuse {B : Type} (f g : B -> bool) (l : list B) :
  filter f (filter g l) = filter (fun x => g x && f x) l.
Proof.
  induction l as [|x l IH]; simpl; [reflexivity |].
  destruct (g x); simpl; [destruct (f x) |]; now rewrite IH.
Qed.

Lemma filter_if {B : Type} (b : bool) (f : B -> bool) (l : list B) :
  (if b then filter f l else l) = filter (fun x => if b then f x else true) l.
Proof.
  destruct b; [reflexivity |].
  induction l as [|x l IH]; simpl; [| rewrite <- IH]; reflexivity.
Qed.

(** The filters of [select] are one filter by [passes], then the sort. *)
Lemma select_passes q l :
  select q l
  = (if JS.truthy (q_sort q) then sortProducts (text (q_sort q))
     else fun products => products)
      (filter (passes q) l).
Proof.
  unfold select. cbv zeta.
  rewrite (filter_if (JS.truthy (q_category q))).
  rewrite (filter_if (JS.truthy (q_search q))).
  rewrite (filter_if (JS.truthy (q_minPrice q))).
  rewrite (filter_if (JS.truthy (q_maxPrice q))).
  rewrite !filter_fuse.
  destruct (JS.truthy (q_sort q)); cbv beta; [f_equal |];
    apply filter_ext; intros x; unfold passes; now rewrite !andb_assoc.
Qed.

Lemma sortProducts_perm k l : Permutation (sortProducts k l) l.
Proof.
  unfold sortProducts.
  repeat match goal with
         | |- context [if ?b then _ else _] => destruct b
         end; try apply sort_perm; apply Permutation_refl.
Qed.

Lemma sortProducts_unknown k l : ~ In k sortKeys -> sortProducts k l = l.
Proof.
  intros H. unfold sortProducts.
  repeat match goal with
         | |- context [(k =? ?c)%string] =>
             destruct (String.eqb_spec k c) as [-> | _];
             [exfalso; apply H; simpl; tauto |]
         end.
  reflexivity.
Qed.

(** X5: [GET /api/products] returns exactly the products that pass every
    filter whose query value is not empty, each as often as the catalog
    holds it; with no sort key, an empty one or one the [switch] does not
    know they come in the order of the catalog; and [count] is their
    number. *)
Theorem listAll_filters (q : Query) (st : Store) :
  exists items,
    listAll env q st
    = (listing items (distinct (map category (catalog st))), st)
    /\ Permutation items (filter (passes q) (catalog st))
    /\ (JS.truthy (q_sort q) = false \/ ~ In (text (q_sort q)) sortKeys ->
        items = filter (passes q) (catalog st))
    /\ field "count" (body (fst (listAll env q st))) = Some (jcount items).
Proof.
  exists (select q (catalog st)). split; [apply listAll_eq |].
  rewrite select_passes. split; [| split].
  - destruct (JS.truthy (q_sort q));
      [apply sortProducts_perm | apply Permutation_refl].
  - intros [H | H].
    + now rewrite H.
    + destruct (JS.truthy (q_sort q)); [| reflexivity].
      now apply sortProducts_unknown.
  - rewrite listAll_eq, select_passes. reflexivity.
Qed.

(** X6: with the sort key [price_asc] the listing never goes down in
    price from one item to the next, and with [price_desc] it never goes
    up, provided the price of every product of the catalog is a finite
    number. *)
Theorem listAll_price_order (q : Query) (st : Store) :
  Forall (fun p => isFinite (price p)) (catalog st) ->
  exists items,
    listAll env q st
    = (listing items (distinct (map category (catalog st))), st)
    /\ (q_sort q = Some "price_asc" -> ascending price items)
    /\ (q_sort q = Some "price_desc" -> descending price items).
Proof.
  intros Hfin.
  exists (select q (catalog st)). split; [apply listAll_eq |].
  rewrite select_passes.
  assert (Hf : Forall (fun p => isFinite (price p))
                 (filter (passes q) (catalog st))).
  { rewrite Forall_forall in *. intros p Hp. apply Hfin.
    now apply filter_In in Hp. }
  split; intros Hs; rewrite Hs; cbn [JS.truthy text String.eqb negb];
    unfold sortProducts; cbn [String.eqb Ascii.eqb Bool.eqb].
  - now apply sort_ascending.
  - now apply sort_descending.
Qed.

Lemma distinct_length (l : list string) :
  (List.length (distinct l) <= List.length l)%nat.
Proof.
  induction l as [|x l IH]; simpl; [lia |].
  pose proof (filter_length_le (fun y => negb (y =? x)%string) (distinct l)).
  lia.
Qed.

(** X7: [GET /api/products/categories] lists every category name of the
    catalog exactly once, never more names than there are products, with
    [count] their number; and it is the list that [GET /api/products]
    returns under [categories], whatever the query. *)
Theorem categories_agree (q : Query) (st : Store) :
  exists cats,
    listCategories env st = (categoryList cats, st)
    /\ field "categories" (body (fst (listAll env q st)))
       = Some (JArr (map JStr cats))
    /\ NoDup cats
    /\ (forall c, In c cats <-> exists p, In p (catalog st) /\ category p = c)
    /\ (List.length cats <= List.length (catalog st))%nat.
Proof.
  exists (distinct (map category (catalog st))).
  split; [reflexivity |]. split; [reflexivity |].
  split; [apply distinct_NoDup |]. split.
  - intros c. rewrite distinct_In, in_map_iff. split.
    + intros (p & <- & Hp). eauto.
    + intros (p & Hp & <-). eauto.
  - rewrite <- (length_map category (catalog st)). apply distinct_length.
Qed.

Lemma lowerChar_idem c : JS.lowerChar (JS.lowerChar c) = JS.lowerChar c.
Proof. destruct c as [[] [] [] [] [] [] [] []]; reflexivity. Qed.

Lemma isSpace_lowerChar c : JS.isSpace (JS.lowerChar c) = JS.isSpace c.
Proof. destruct c as [[] [] [] [] [] [] [] []]; reflexivity. Qed.

Lemma dashedFrom_idem s : forall g g',
  dashedFrom g' (dashedFrom g s) = dashedFrom g s.
Proof.
  induction s as [|c s IH]; intros g g'; [reflexivity |].
  cbn [dashedFrom]. destruct (JS.isSpace c) eqn:Hc.
  - destruct g; [apply IH |].
    cbn [dashedFrom]. change (JS.isSpace "-") with false. cbv iota.
    change (JS.lowerChar "-") with "-"%char. now rewrite IH.
  - cbn [dashedFrom]. rewrite isSpace_lowerChar, Hc, lowerChar_idem.
    now rewrite IH.
Qed.

(** X8: [GET /api/products/category/:category] always answers success,
    also for a name no product has, and returns exactly the products
    whose category equals the name once both are put in lower case with
    each run of white space turned into one hyphen; so every product is
    found under its own category name and under the hyphenated form of
    it. *)
Theorem listByCategory_variants (categoryParam : string) (st : Store) :
  exists items,
    listByCategory env categoryParam st = (inCategory categoryParam items, st)
    /\ statusCode (inCategory categoryParam items) = 200
    /\ succeeded (inCategory categoryParam items)
    /\ (forall p, In p items
                  <-> In p (catalog st)
                      /\ dashed (category p) = dashed categoryParam)
    /\ (forall p, In p (catalog st) ->
                  categoryParam = category p
                  \/ categoryParam = dashed (category p) ->
                  In p items).
Proof.
  exists (filter (fun p => (dashed (category p) =? dashed categoryParam)%string)
            (catalog st)).
  split; [reflexivity |]. split; [reflexivity |]. split; [reflexivity |].
  assert (Hiff : forall p,
             In p (filter (fun p => (dashed (category p)
                                     =? dashed categoryParam)%string)
                     (catalog st))
             <-> In p (catalog st)
                 /\ dashed (category p) = dashed categoryParam)
    by (intros p; now rewrite filter_In, String.eqb_eq).
  split; [exact Hiff |].
  intros p Hp [-> | ->]; apply Hiff; split; auto.
  unfold dashed. now rewrite dashedFrom_idem.
Qed.

(** X9: the routes that read leave the JSON file of their store as it
    was and write nothing to it, whatever the request: the listings, the
    category routes and [getById] of the products, and the listing of the
    submissions, which makes the data directory when it is missing and
    changes nothing else. *)
Theorem reads_leave_store (q : Query) (idParam categoryParam : string)
  (statusKey sortKey : option string) (st : Store) (inbox : Contact.Store) :
  snd (listAll env q st) = st
  /\ snd (listCategories env st) = st
  /\ snd (listByCategory env categoryParam st) = st
  /\ snd (getById env idParam st) = st
  /\ (snd (Contact.listAll env statusKey sortKey inbox) = inbox
      :> File (list Contact.Submission))
  /\ snd (Contact.listAll env statusKey sortKey inbox) = Contact.opened inbox.
Proof.
  split; [reflexivity |]. split; [reflexivity |]. split; [reflexivity |].
  split; [| split].
  - unfold getById, handleValidationErrors, guarded, bind, getProductsData,
      readAll, ret.
    destruct (idErrors idParam); [| reflexivity].
    destruct (find (hasId idParam) _); reflexivity.
  - rewrite submissions_eq. apply seen_opened.
  - now rewrite submissions_eq.
Qed.

End ProductListings.

Lemma listAll_price_order_witness :
  dataOf (fst (Products.listAll (host := Sample.host) Sample.env
                 (Products.mkQuery None None None None (Some "price_asc"))
                 Sample.shelf))
  = map Products.toJSON [Sample.bleach; Sample.gel; Sample.soap]
  /\ exists items,
      Products.listAll (host := Sample.host) Sample.env
        (Products.mkQuery None None None None (Some "price_asc")) Sample.shelf
      = (Products.listing items
           (distinct (map Products.category Sample.catalog)), Sample.shelf)
      /\ ascending Products.price items.
Proof.
  split; [vm_compute; reflexivity |].
  destruct (listAll_price_order (host := Sample.host) Sample.env
              (Products.mkQuery None None None None (Some "price_asc"))
              Sample.shelf)
    as (items & Heq & Hasc & _).
  - repeat constructor; eexists; reflexivity.
  - exists items. split; [exact Heq | now apply Hasc].
Defined.

Lemma listAll_filters_witness :
  exists items,
    Products.listAll (host := Sample.host) Sample.env
      (Products.mkQuery (Some "") (Some "gel") None None (Some "newest"))
      Sample.shelf
    = (Products.listing items
         (distinct (map Products.category Sample.catalog)), Sample.shelf)
    /\ items = [Sample.gel].
Proof.
  destruct (listAll_filters (host := Sample.host) Sample.env
              (Products.mkQuery (Some "") (Some "gel") None None
                 (Some "newest"))
              Sample.shelf)
    as (items & Heq & _ & Hord & _).
  exists items. split; [exact Heq |].
  rewrite Hord; [reflexivity |].
  right. simpl. intuition discriminate.
Defined.

Lemma listByCategory_variants_witness :
  exists items,
    Products.listByCategory Sample.env "cleaning-chemicals" Sample.shelf
    = (inCategory "cleaning-chemicals" items, Sample.shelf)
    /\ In Sample.soap items.
Proof.
  destruct (listByCategory_variants Sample.env "cleaning-chemicals"
              Sample.shelf)
    as (items & Heq & _ & _ & _ & Hin).
  exists items. split; [exact Heq |].
  apply Hin; [now left | now right].
Defined.

(* ===================================================================== *)
(** * Products: how create, getById, update and delete compose *)
(* ===================================================================== *)

Section ProductLifeCycle.
Variable env : Env.

Import Products.

Lemma find_last {B : Type} (f : B -> bool) (l : list B) (x : B) :
  (forall y, In y l -> f y = false) -> f x = true ->
  find f (l ++ [x]) = Some x.
Proof.
  intros Hl Hx. induction l as [|y l IH]; simpl.
  - now rewrite Hx.
  - rewrite (Hl y (or_introl eq_refl)). apply IH.
    intros z Hz. apply Hl. now right.
Qed.

(** X10: after a valid create whose write succeeds, on a catalog whose
    identifiers are safe integers (from [-2^53] to [2^53 - 1]),
    [getById] with the identifier of the response returns the created
    record, at any later time. *)
Theorem create_then_getById (env' : Env) (b : CreateBody) (st : Store) :
  createErrors b = [] -> writable st = true ->
  safeCatalog (catalog st) ->
  let p := newProduct env (catalog st) b in
  let st' := snd (create env b st) in
  fst (create env b st) = created p
  /\ getById env' (JS.toString (id p)) st' = (found p, st').
Proof.
  intros Hb Hw Hs p st'. subst st'. rewrite create_run by exact Hb.
  cbn [fst snd]. split; [reflexivity |].
  rewrite getById_run by apply isNumeric_toString.
  rewrite catalog_writeAll, Hw.
  rewrite find_last; [reflexivity | |].
  - intros y Hy. rewrite (hasId_parse _ (id p)) by apply parseInt_id.
    apply Z.eqb_neq. pose proof (fresh_id_above env _ b y Hs Hy). subst p. lia.
  - rewrite (hasId_parse _ (id p)) by apply parseInt_id.
    apply Z.eqb_refl.
Qed.

(** X11: when the file of a store cannot be read and can be written, a
    valid create leaves a products file that holds the new product only,
    with the identifier [1], and a valid contact form leaves a
    submissions file that holds the new record only: what the unreadable
    file held is replaced. *)
Theorem first_write_replaces {host : Host} (b : CreateBody)
  (f : Contact.Form) (st : Store) (inbox : Contact.Store) :
  (content st = None -> writable st = true -> createErrors b = [] ->
   content (snd (create env b st)) = Some [newProduct env [] b]
   /\ id (newProduct env [] b) = 1)
  /\ (content inbox = None -> writable inbox = true ->
      Contact.submitErrors f = [] ->
      content (snd (Contact.submit env f inbox))
      = Some [Contact.newSubmission env f]).
Proof.
  split.
  - intros Hc Hw Hb. rewrite create_run by exact Hb. cbn [snd].
    unfold writeAll, catalog. rewrite Hw, Hc. split; reflexivity.
  - intros Hc Hw Hf. rewrite submit_run by exact Hf. cbn [snd].
    rewrite content_save by exact Hw.
    unfold catalog. rewrite Hc. reflexivity.
Qed.

Lemma nonEmpty_neq s : Validator.nonEmpty s = true -> s <> "".
Proof. destruct s; [discriminate | discriminate]. Qed.

(** X12: every record a valid create builds has a non-empty name,
    description, packaging, category and image, a price that is a number
    not below zero, the time of the request as [createdAt] and no
    [updatedAt]; the image is the placeholder when the body has none or
    an empty one. *)
Theorem created_product_shape (b : CreateBody) (l : list Product) :
  createErrors b = [] ->
  let p := newProduct env l b in
  name p <> "" /\ description p <> "" /\ packaging p <> ""
  /\ category p <> "" /\ image p <> ""
  /\ JS.ge (price p) (JS.ofZ 0) = true
  /\ createdAt p = Some (now env) /\ updatedAt p = None
  /\ (c_image b = None \/ c_image b = Some "" ->
      image p = "Images/Maschem-dish-deluxe.png").
Proof.
  unfold createErrors. intros H.
  repeat (apply app_eq_nil in H; destruct H as [?H H]).
  repeat match goal with
         | E : rule _ _ _ = [] |- _ => apply rule_nil in E
         end.
  cbn [newProduct name description packaging category image price
         createdAt updatedAt].
  repeat split; try (now apply nonEmpty_neq).
  - unfold JS.orElse. destruct (c_image b) as [s|]; [| discriminate].
    destruct (String.eqb_spec s ""); [discriminate | assumption].
  - unfold Validator.isFloatMin in H.
    destruct (Validator.isIn (text (c_price b)) _); [discriminate |].
    now apply andb_prop in H.
  - intros [-> | ->]; reflexivity.
Qed.




Lemma removeAt_perm {B : Type} (l : list B) i x :
  nth_error l i = Some x -> Permutation l (x :: removeAt i l).
Proof.
  revert i. induction l as [|y l IH]; intros [|i]; simpl; try discriminate.
  - intros [= ->]. apply Permutation_refl.
  - intros H. eapply perm_trans; [apply perm_skip, (IH i H) | apply perm_swap].
Qed.


End ProductLifeCycle.

Lemma create_then_getById_witness :
  Products.getById Sample.env "4"
    (snd (Products.create Sample.env Sample.body Sample.shelf))
  = (Products.found
       (Products.newProduct Sample.env Sample.catalog Sample.body),
     snd (Products.create Sample.env Sample.body Sample.shelf)).
Proof.
  apply (create_then_getById Sample.env Sample.env Sample.body Sample.shelf);
    try reflexivity.
  intros p [<- | [<- | [<- | []]]];
    (split; [apply Z.leb_le | apply Z.ltb_lt]; reflexivity).
Defined.

Lemma first_write_replaces_witness :
  content (snd (Products.create Sample.env Sample.body Sample.lostShelf))
  = Some [Products.newProduct Sample.env [] Sample.body]
  /\ content (snd (Contact.submit (host := Sample.host) Sample.env
                     Sample.form Sample.freshDisk))
     = Some [Contact.newSubmission (host := Sample.host) Sample.env
               Sample.form].
Proof.
  destruct (first_write_replaces (host := Sample.host) Sample.env Sample.body
              Sample.form Sample.lostShelf Sample.freshDisk)
    as [Hp Hc].
  split.
  - apply Hp; reflexivity.
  - apply Hc; reflexivity.
Defined.

Lemma created_product_shape_witness :
  JS.ge (Products.price
           (Products.newProduct Sample.env Sample.catalog Sample.body))
    (JS.ofZ 0) = true.
Proof.
  apply (created_product_shape Sample.env Sample.body Sample.catalog).
  vm_compute. reflexivity.
Defined.



(* ===================================================================== *)
(** * Submissions: listing, status changes, removal, stored records *)
(* ===================================================================== *)

Section SubmissionLifeCycle.
Context {host : Host}.
Variable env : Env.

Import Contact.

Lemma select_order statusKey sortKey l :
  select statusKey sortKey l
  = sort (byDate (match sortKey with
                  | Some k => (k =? "oldest")%string
                  | None => false
                  end))
      (filter (fun s => if JS.truthy statusKey
                        then (status s =? text statusKey)%string else true)
         l).
Proof.
  unfold select. rewrite (filter_if (JS.truthy statusKey)).
  destruct (match sortKey with
            | Some k => (k =? "oldest")%string
            | None => false
            end); reflexivity.
Qed.

(** X16: the listing of the submissions returns the stored records, or
    under a non-empty status key those of that status, each as often as
    it is stored; when every [createdAt] reads as a date they come oldest
    first under the sort key [oldest] and newest first under any other
    key or none.  The request leaves the submissions file as it was; it
    makes the data directory when that is missing. *)
Theorem submissions_listing (statusKey sortKey : option string) (st : Store) :
  exists items,
    listAll env statusKey sortKey st = (listing items, opened st)
    /\ (opened st = st :> File (list Submission))
    /\ Permutation items
         (filter (fun s => if JS.truthy statusKey
                           then (status s =? text statusKey)%string
                           else true)
            (catalog st))
    /\ (Forall (fun s => isFinite (dateValue (createdAt s))) (catalog st) ->
        (sortKey = Some "oldest" ->
         ascending (fun s => dateValue (createdAt s)) items)
        /\ (sortKey <> Some "oldest" ->
            descending (fun s => dateValue (createdAt s)) items)).
Proof.
  exists (select statusKey sortKey (catalog st)).
  split; [apply submissions_eq |]. split; [apply seen_opened |].
  rewrite select_order.
  split; [apply sort_perm |].
  intros Hfin.
  set (kept := filter _ (catalog st)).
  assert (Hk : Forall (fun s => isFinite (dateValue (createdAt s))) kept).
  { rewrite Forall_forall in *. intros s Hs. apply Hfin.
    subst kept. now apply filter_In in Hs. }
  split.
  - intros ->. change ("oldest" =? "oldest")%string with true.
    apply (sort_ascending (fun s => dateValue (createdAt s))), Hk.
  - intros Hs.
    assert (E : match sortKey with
                | Some k => (k =? "oldest")%string
                | None => false
                end = false).
    { destruct sortKey as [k|]; [| reflexivity].
      apply String.eqb_neq. congruence. }
    rewrite E.
    apply (sort_descending (fun s => dateValue (createdAt s))), Hk.
Qed.

Lemma replaceAt_keys (l : list Submission) i v old :
  nth_error l i = Some old -> id v = id old ->
  map id (replaceAt i v l) = map id l.
Proof.
  revert i. induction l as [|x l IH]; intros [|i]; simpl; try discriminate.
  - intros [= ->] ->. reflexivity.
  - intros H1 H2. f_equal. eauto.
Qed.

(** X17: the status of a stored submission can be set to each of the
    four statuses whatever its current status is, its current one
    included: the request succeeds and returns the record with the new
    status, the time of the request as [updatedAt] and every other field
    as it was; and no status update, valid or not, changes the
    identifiers of the stored submissions. *)
Theorem updateStatus_any (idParam newStatus : string) (st : Store) :
  (In newStatus statuses -> In idParam (map id (catalog st)) ->
   exists old,
     find (hasId idParam) (catalog st) = Some old
     /\ fst (updateStatus env idParam (Some newStatus) st)
        = updated (restamp env old newStatus)
     /\ restamp env old newStatus
        = mkSubmission (id old) (firstName old) (lastName old) (email old)
            (phone old) (subject old) (message old) newStatus
            (createdAt old) (ipAddress old) (userAgent old)
            (Some (now env)))
  /\ (forall body,
         map id (catalog (snd (updateStatus env idParam body st)))
         = map id (catalog st)).
Proof.
  split.
  - intros Hs Hin.
    apply in_map_iff in Hin. destruct Hin as (x & Hx & Hxin).
    assert (Hhas : hasId idParam x = true)
      by (unfold hasId; rewrite Hx; apply String.eqb_refl).
    destruct (In_has_index _ _ _ Hxin Hhas) as [i Hi].
    destruct (findIndex_Some _ _ _ Hi) as (old & Hnth & Hfind & _).
    exists old. split; [exact Hfind |].
    assert (Hok : statusErrors (Some newStatus) = []).
    { unfold statusErrors. apply rule_nil. now apply isIn_In. }
    rewrite (updateStatus_run env idParam (Some newStatus) st i old
               Hok Hi Hnth).
    split; reflexivity.
  - intros body.
    destruct (statusErrors body) as [|e es] eqn:Hb;
      [| unfold updateStatus, handleValidationErrors; now rewrite Hb].
    destruct (findIndex (hasId idParam) (catalog st)) as [i|] eqn:Hi.
    + destruct (findIndex_Some _ _ _ Hi) as (old & Hold & _).
      rewrite (updateStatus_run env idParam body st i old Hb Hi Hold).
      cbn [snd]. rewrite catalog_save.
      destruct (writable st); [| reflexivity].
      now apply replaceAt_keys with (old := old).
    + rewrite (updateStatus_missing env idParam body st Hb Hi).
      cbn [snd]. now rewrite seen_opened.
Qed.

(** X18: a delete that finds its submission and whose write succeeds
    answers with the first record of that identifier and takes exactly
    this one record out of the store; when the stored identifiers are
    pairwise distinct, a second delete with the same identifier answers
    the 404 and a status update of it as well. *)
Theorem remove_then_absent (env' : Env) (idParam : string) (old : Submission)
  (st : Store) :
  writable st = true ->
  find (hasId idParam) (catalog st) = Some old ->
  let st' := snd (delete env idParam st) in
  fst (delete env idParam st) = deleted old
  /\ id old = idParam
  /\ Permutation (catalog st) (old :: catalog st')
  /\ (NoDup (map id (catalog st)) ->
      delete env' idParam st' = (notFound, st')
      /\ updateStatus env' idParam (Some "read") st' = (notFound, st')).
Proof.
  intros Hw Hfind st'.
  destruct (find_findIndex _ _ _ Hfind) as (i & Hi & Hnth).
  pose proof (remove_run env idParam st i old Hi Hnth) as Hrun.
  assert (Hcat : catalog st' = removeAt i (catalog st))
    by (subst st'; rewrite Hrun; cbn [snd]; now rewrite catalog_save, Hw).
  assert (Hdir : opened st' = st')
    by (subst st'; rewrite Hrun; cbn [snd]; apply opened_save).
  assert (Hid : id old = idParam).
  { apply find_some in Hfind. destruct Hfind as [_ H].
    now apply String.eqb_eq in H. }
  split; [now rewrite Hrun |]. split; [exact Hid |].
  split; [rewrite Hcat; now apply removeAt_perm |].
  intros Hnd.
  assert (Habs : ~ In idParam (map id (catalog st'))).
  { pose proof (removeAt_perm _ _ _ Hnth) as Hperm.
    apply (Permutation_map id) in Hperm.
    apply (Permutation_NoDup Hperm) in Hnd. cbn [map] in Hnd.
    rewrite Hcat, <- Hid. now inversion Hnd. }
  pose proof (submission_absent st' idParam Habs) as Hnone.
  split.
  - rewrite (remove_missing env' idParam st' Hnone). now rewrite Hdir.
  - rewrite (updateStatus_missing env' idParam (Some "read") st' eq_refl
               Hnone).
    now rewrite Hdir.
Qed.

Lemma isLength_bounds lo hi s :
  Validator.isLength lo hi s = true -> (lo <= String.length s <= hi)%nat.
Proof.
  unfold Validator.isLength. intros H. apply andb_prop in H.
  destruct H as [H1 H2]. apply Nat.leb_le in H1, H2. auto.
Qed.

(** X19: the record an accepted contact form produces obeys the rules of
    its fields: first and last name of 2 to 50 characters, a subject
    among the five known ones, a message of 10 to 2000 characters, the
    status pending, no [updatedAt], and a phone that is null or matches
    the phone pattern. *)
Theorem accepted_record_wellFormed (f : Form) :
  submitErrors f = [] -> wellFormed (newSubmission env f).
Proof.
  unfold submitErrors, nameErrors, emailErrors, phoneErrors, subjectErrors,
    messageErrors.
  intros H.
  repeat match goal with
         | E : _ ++ _ = [] |- _ => apply app_eq_nil in E; destruct E
         | E : rule _ _ _ = [] |- _ => apply rule_nil in E
         end.
  unfold wellFormed.
  cbn [newSubmission firstName lastName subject message status updatedAt
         phone].
  repeat split;
    try (match goal with
         | E : Validator.isLength ?lo ?hi ?s = true
           |- (_ <= String.length ?s)%nat =>
             apply (isLength_bounds lo hi s E)
         | E : Validator.isLength ?lo ?hi ?s = true
           |- (String.length ?s <= _)%nat =>
             apply (isLength_bounds lo hi s E)
         end).
  - now apply isIn_In.
  - destruct (f_phone f) as [p|]; [| exact I].
    destruct (JS.trim p =? "")%string; [exact I |].
    match goal with
    | E : rule _ "phone" _ = [] |- _ => now apply rule_nil in E
    end.
Qed.

(** X20: the phone is optional only in that it may be missing: a phone
    that is present and has fewer than 7 characters once trimmed, the
    empty string included, makes the form fail with the phone error. *)
Theorem short_phone_refused (f : Form) (p : string) (st : Store) :
  f_phone f = Some p -> (String.length (JS.trim p) < 7)%nat ->
  In ("phone", "Please provide a valid phone number") (submitErrors f)
  /\ submit env f st = (validationResponse (submitErrors f), st)
  /\ statusCode (validationResponse (submitErrors f)) = 400.
Proof.
  intros Hp Hlen.
  assert (Hphone : phoneErrors f
                   = [("phone", "Please provide a valid phone number")]).
  { unfold phoneErrors. rewrite Hp.
    assert (Hm : Validator.matchesPhone (JS.trim p) = false).
    { unfold Validator.matchesPhone, Validator.isLength.
      apply andb_false_iff. right. apply andb_false_iff. left.
      apply Nat.leb_gt.
      destruct (JS.trim p) as [|c r]; [simpl; lia |].
      destruct (c =? "+")%char eqn:E.
      - apply Ascii.eqb_eq in E. subst c. simpl in *. lia.
      - assert (Hr : match String c r with
                     | String "+" s' => s'
                     | _ => String c r
                     end = String c r).
        { destruct (Ascii.eqb_spec c "+") as [-> | Hne]; [discriminate |].
          destruct c as [[] [] [] [] [] [] [] []]; try reflexivity.
          contradiction. }
        rewrite Hr. exact Hlen. }
    now rewrite Hm. }
  assert (Hin : In ("phone", "Please provide a valid phone number")
                  (submitErrors f)).
  { unfold submitErrors. rewrite !in_app_iff, Hphone.
    do 3 right. left. now left. }
  split; [exact Hin |]. split; [| reflexivity].
  unfold submit, handleValidationErrors.
  destruct (submitErrors f); [destruct Hin | reflexivity].
Qed.

End SubmissionLifeCycle.

Lemma submissions_listing_witness :
  exists items,
    Contact.listAll (host := Sample.host) Sample.env (Some "pending")
      (Some "oldest") Sample.inbox
    = (Contact.listing items, Sample.inbox)
    /\ ascending (fun s => dateValue (Host := Sample.host)
                             (Contact.createdAt s)) items.
Proof.
  destruct (submissions_listing (host := Sample.host) Sample.env
              (Some "pending") (Some "oldest") Sample.inbox)
    as (items & Heq & _ & _ & Hord).
  exists items. split; [exact Heq |].
  apply Hord; [| reflexivity].
  repeat constructor. eexists. vm_compute. reflexivity.
Defined.

Lemma updateStatus_any_witness :
  fst (Contact.updateStatus Sample.env "a1" (Some "pending") Sample.inbox)
  = Contact.updated (Contact.restamp Sample.env Sample.note "pending").
Proof.
  destruct (updateStatus_any Sample.env "a1" "pending" Sample.inbox)
    as [H _].
  destruct H as (old & Hold & Heq & _).
  - simpl. tauto.
  - simpl. tauto.
  - injection Hold as <-. exact Heq.
Defined.

Lemma remove_then_absent_witness :
  Contact.delete Sample.env "a1"
    (snd (Contact.delete Sample.env "a1" Sample.inbox))
  = (Contact.notFound, snd (Contact.delete Sample.env "a1" Sample.inbox)).
Proof.
  destruct (remove_then_absent Sample.env Sample.env "a1" Sample.note
              Sample.inbox eq_refl eq_refl)
    as (_ & _ & _ & H).
  apply H. repeat constructor; simpl; tauto.
Defined.

Lemma accepted_record_wellFormed_witness :
  wellFormed (Contact.newSubmission (host := Sample.host) Sample.env
                Sample.form).
Proof.
  apply (accepted_record_wellFormed (host := Sample.host) Sample.env
           Sample.form).
  reflexivity.
Defined.

Lemma short_phone_refused_witness :
  let f := Contact.mkForm (Some "Jo") (Some "Doe") (Some "jo@x.com")
             (Some "") (Some "general") (Some "Hello there, need info")
             None None in
  Contact.submit (host := Sample.host) Sample.env f Sample.inbox
  = (validationResponse [("phone", "Please provide a valid phone number")],
     Sample.inbox).
Proof.
  intros f.
  apply (short_phone_refused (host := Sample.host) Sample.env f ""
           Sample.inbox eq_refl).
  simpl. lia.
Defined.

(* ===================================================================== *)
(** * More on how the routes compose *)
(* ===================================================================== *)

Section Compositions.
Context {host : Host}.
Variable env : Env.


Lemma findIndex_last {B : Type} (f : B -> bool) (l : list B) (x : B) :
  (forall y, In y l -> f y = false) -> f x = true ->
  findIndex f (l ++ [x]) = Some (List.length l)
  /\ nth_error (l ++ [x]) (List.length l) = Some x
  /\ removeAt (List.length l) (l ++ [x]) = l.
Proof.
  intros Hl Hx. induction l as [|y l IH]; simpl.
  - rewrite Hx. auto.
  - rewrite (Hl y (or_introl eq_refl)).
    destruct IH as (-> & -> & ->); [| auto].
    intros z Hz. apply Hl. now right.
Qed.


(** X22: after a valid contact form whose write succeeds, the listing of
    the pending submissions holds the new record; and when the drawn
    identifier was not in use, a delete with the identifier of the
    response removes and returns that record. *)
Theorem submit_then_listed (env' : Env) (f : Contact.Form)
  (sortKey : option string) (st : Contact.Store) :
  Contact.submitErrors f = [] -> writable st = true ->
  let st' := snd (Contact.submit env f st) in
  let created := Contact.newSubmission env f in
  In (Contact.toJSON created)
    (dataOf (fst (Contact.listAll env' (Some "pending") sortKey st')))
  /\ (~ In (uuidv4 env) (map Contact.id (catalog st)) ->
      fst (Contact.delete env' (uuidv4 env) st') = Contact.deleted created
      /\ catalog (snd (Contact.delete env' (uuidv4 env) st')) = catalog st).
Proof.
  intros Hf Hw st' created.
  assert (Hcat : catalog st' = catalog st ++ [created])
    by (subst st'; rewrite submit_run by exact Hf; cbn [snd];
        now rewrite catalog_save, Hw).
  assert (Hw' : writable st' = true)
    by (subst st'; rewrite submit_run by exact Hf; cbn [snd];
        now rewrite writable_save).
  clearbody st'. split.
  - rewrite submissions_eq. cbn [fst].
    change (dataOf (Contact.listing ?l)) with (map Contact.toJSON l).
    apply in_map, select_In. rewrite Hcat. split.
    + apply in_or_app. right. now left.
    + reflexivity.
  - intros Hfresh.
    assert (Hlen : findIndex (Contact.hasId (uuidv4 env)) (catalog st')
                   = Some (List.length (catalog st))
                   /\ nth_error (catalog st') (List.length (catalog st))
                      = Some created
                   /\ removeAt (List.length (catalog st)) (catalog st')
                      = catalog st).
    { rewrite Hcat. apply findIndex_last.
      - intros y Hy. unfold Contact.hasId. apply String.eqb_neq. intros E.
        apply Hfresh. rewrite <- E. now apply in_map.
      - unfold Contact.hasId. apply String.eqb_refl. }
    destruct Hlen as (Hi & Hnth & Hrem).
    rewrite (remove_run env' (uuidv4 env) st' _ created Hi Hnth).
    cbn [fst snd]. split; [reflexivity |].
    now rewrite catalog_save, Hw', Hrem.
Qed.

(** X23: a path that is a bare fraction, as [.5], [+.5] or [-.5], passes
    the numeric check although [parseInt] reads no number in it; then
    [getById], [update] and [delete] answer the 404 in every state of
    the store, a product with the identifier [0] included, and nothing
    is written. *)
Theorem bare_fraction_not_found (sign r : string) (b : Products.UpdateBody)
  (st : Products.Store) :
  In sign [""; "+"; "-"] -> r <> "" -> Validator.allDigits r = true ->
  let idParam := (sign ++ String "." r)%string in
  Products.idErrors idParam = []
  /\ Products.getById env idParam st = (Products.notFound, st)
  /\ Products.delete env idParam st = (Products.notFound, st)
  /\ (Products.updateErrors idParam b = [] ->
      Products.update env idParam b st = (Products.notFound, st)).
Proof.
  intros Hs Hr Hd idParam.
  destruct (signed_point sign r Hs Hr Hd) as [Hnum Hparse].
  assert (Hnone : findIndex (Products.hasId idParam) (catalog st) = None).
  { apply findIndex_None. intros p _. unfold Products.hasId.
    subst idParam. now rewrite Hparse. }
  split; [now apply idErrors_nil |]. split; [| split].
  - rewrite getById_run by exact Hnum.
    destruct (find (Products.hasId idParam) (catalog st)) as [p|] eqn:E;
      [| reflexivity].
    apply find_some in E. destruct E as [_ E].
    unfold Products.hasId in E. subst idParam. rewrite Hparse in E.
    discriminate.
  - now apply delete_missing.
  - intros Hb. unfold Products.update, handleValidationErrors. rewrite Hb.
    unfold guarded, bind, Products.getProductsData, readAll, ret.
    fold (catalog st). now rewrite Hnone.
Qed.

End Compositions.


Lemma submit_then_listed_witness :
  In (Contact.toJSON (Contact.newSubmission (host := Sample.host) Sample.env
                        Sample.form))
    (dataOf (fst (Contact.listAll (host := Sample.host) Sample.env
                    (Some "pending") None
                    (snd (Contact.submit (host := Sample.host) Sample.env
                            Sample.form Sample.inbox))))).
Proof.
  apply (submit_then_listed (host := Sample.host) Sample.env Sample.env
           Sample.form None Sample.inbox); reflexivity.
Defined.

Lemma bare_fraction_not_found_witness :
  Products.getById Sample.env ".5"
    (mkFile (Some [Products.mkProduct 0 "Zero" "i" "d" "p" "c"
                     (JS.ofZ 1) None None]) true 0)
  = (Products.notFound,
     mkFile (Some [Products.mkProduct 0 "Zero" "i" "d" "p" "c"
                     (JS.ofZ 1) None None]) true 0).
Proof.
  assert (Hs : In "" [""; "+"; "-"]) by (simpl; tauto).
  assert (Hr : "5" <> "") by discriminate.
  destruct (bare_fraction_not_found Sample.env "" "5" Sample.patch
              (mkFile (Some [Products.mkProduct 0 "Zero" "i" "d" "p" "c"
                               (JS.ofZ 1) None None]) true 0)
              Hs Hr eq_refl)
    as (_ & H & _).
  exact H.
Defined.
